(** * Script Generate: the request/response glue, formalised

    A shallow embedding of the TypeScript sources of the repository,

    - [services/geminiService.ts]: the request sent to the generative-AI API
      and the validation of its answer ([generateScriptBundle]);
    - [utils/zipUtils.ts]: [createAndDownloadZip];
    - the application component: [buildFileTree], the chat history and
      [handleSubmit],

    followed by the properties stated of them.

    Conventions.  A [string] is a JavaScript string whose code units are all
    below 256.  What the host provides and the repository only calls
    ([JSON.parse], [JSON.stringify], [String.prototype.localeCompare], the
    engine's wording of a TypeError, the remote model, the archive library,
    the DOM) is an interface: a class whose fields the definitions use and
    the theorems quantify over. *)

From Stdlib Require Import List String Ascii Bool ZArith Lia Permutation Sorted.
Import ListNotations.
Local Open Scope string_scope.
Local Open Scope list_scope.
Set Warnings "-register-all".

(** ** JavaScript values and built-ins used by the sources *)

Module JS.

(** The double quote and the line feed, which string literals here do not spell. *)
Definition dq : string := String (ascii_of_nat 34) EmptyString.
Definition nl : string := String (ascii_of_nat 10) EmptyString.

(** A finite double is [mantissa * 2 ^ exponent]. *)
Inductive Number : Type :=
| Finite (mantissa exponent : Z)
| Infinity (negative : bool)
| NaN.

(** The values [JSON.parse] can produce, and [undefined] for absent properties. *)
Inductive JSValue : Type :=
| Undefined
| Null
| Bool (b : bool)
| Num (x : Number)
| Str (s : string)
| Array (items : list JSValue)
| Object (members : list (string * JSValue)).

(** What a [throw] carries, as far as [instanceof Error] and [.message] can
    tell: a TypeError of the engine is an [Error] with the engine's message. *)
Inductive Thrown : Type :=
| Error (message : string)
| NotAnError.

(** A settled promise. *)
Inductive Settled (A : Type) : Type :=
| Fulfilled (value : A)
| Rejected (reason : Thrown).
Arguments Fulfilled {A} value.
Arguments Rejected {A} reason.

(** [ToBoolean]. *)
Definition truthy (v : JSValue) : bool :=
  match v with
  | Undefined | Null => false
  | Bool b => b
  | Num (Finite m _) => negb (m =? 0)%Z
  | Num (Infinity _) => true
  | Num NaN => false
  | Str s => negb (s =? "")
  | Array _ | Object _ => true
  end.

(** [Array.isArray]. *)
Definition isArray (v : JSValue) : bool :=
  match v with
  | Array _ => true
  | _ => false
  end.

(** Own property of an object literal; a later member of the same key wins. *)
Fixpoint ownProperty (key : string) (members : list (string * JSValue)) : JSValue :=
  match members with
  | [] => Undefined
  | (k, v) :: rest =>
      match ownProperty key rest with
      | Undefined => if k =? key then v else Undefined
      | later => later
      end
  end.

(** [v.files]: [None] is the TypeError of reading a property of [null] or
    [undefined]; no prototype defines a property called [files]. *)
Definition get_files (v : JSValue) : option JSValue :=
  match v with
  | Undefined | Null => None
  | Object members => Some (ownProperty "files" members)
  | Bool _ | Num _ | Str _ | Array _ => Some Undefined
  end.

(** [v[key]] for a key that no prototype defines, as [name] and [content]
    are: [None] is the TypeError of reading a property of [null] or
    [undefined]. *)
Definition get (key : string) (v : JSValue) : option JSValue :=
  match v with
  | Undefined | Null => None
  | Object members => Some (ownProperty key members)
  | Bool _ | Num _ | Str _ | Array _ => Some Undefined
  end.

(** The engine words the message of that TypeError, from the value read and
    the property asked of it. *)
Class Engine : Type := { cannot_read_property : JSValue -> string -> string }.

(** An engine to run examples with. *)
Definition exampleEngine : Engine :=
  {| cannot_read_property := fun v key =>
       ("Cannot read properties of "
        ++ match v with Null => "null" | _ => "undefined" end
        ++ " (reading '" ++ key ++ "')")%string |}.

(** White space and line terminators among the code units below 256. *)
Definition isWhiteSpace (c : ascii) : bool :=
  let n := nat_of_ascii c in
  ((9 <=? n) && (n <=? 13) || (n =? 32) || (n =? 160))%nat.

Fixpoint trimStart (s : string) : string :=
  match s with
  | EmptyString => EmptyString
  | String c rest => if isWhiteSpace c then trimStart rest else s
  end.

Fixpoint trimEnd (s : string) : string :=
  match s with
  | EmptyString => EmptyString
  | String c rest =>
      match trimEnd rest with
      | EmptyString => if isWhiteSpace c then EmptyString else String c EmptyString
      | kept => String c kept
      end
  end.

(** [String.prototype.trim]. *)
Definition trim (s : string) : string := trimEnd (trimStart s).

(** [String.prototype.split] with a one-character separator: never empty. *)
Fixpoint split (sep : ascii) (s : string) : list string :=
  match s with
  | EmptyString => [EmptyString]
  | String c rest =>
      if Ascii.eqb c sep then EmptyString :: split sep rest
      else match split sep rest with
           | [] => [String c EmptyString]
           | part :: parts => String c part :: parts
           end
  end.

(** A predicate on every code unit of a string. *)
Fixpoint everyChar (p : ascii -> bool) (s : string) : bool :=
  match s with
  | EmptyString => true
  | String c rest => p c && everyChar p rest
  end.

(** [String.prototype.toLowerCase] on code units below 256: the letters A-Z
    and the capital letters of Latin-1 move up by 32. *)
Definition toLowerChar (c : ascii) : ascii :=
  let n := nat_of_ascii c in
  if ((65 <=? n) && (n <=? 90) || (192 <=? n) && (n <=? 214)
      || (216 <=? n) && (n <=? 222))%nat
  then ascii_of_nat (n + 32)
  else c.

Fixpoint toLowerCase (s : string) : string :=
  match s with
  | EmptyString => EmptyString
  | String c rest => String (toLowerChar c) (toLowerCase rest)
  end.

(** [s.replace(/\s+/g, '-')]: every run of white space becomes one hyphen.
    [inRun] says that the code unit before was white space. *)
Fixpoint replaceWhiteSpace (inRun : bool) (s : string) : string :=
  match s with
  | EmptyString => EmptyString
  | String c rest =>
      if isWhiteSpace c
      then if inRun then replaceWhiteSpace true rest
           else String "-" (replaceWhiteSpace true rest)
      else String c (replaceWhiteSpace false rest)
  end.

(** The class [a-z0-9-]. *)
Definition isSlugChar (c : ascii) : bool :=
  let n := nat_of_ascii c in
  ((97 <=? n) && (n <=? 122) || (48 <=? n) && (n <=? 57) || (n =? 45))%nat.

(** [s.replace(/[^a-z0-9-]/g, '')]. *)
Fixpoint keepSlugChars (s : string) : string :=
  match s with
  | EmptyString => EmptyString
  | String c rest =>
      if isSlugChar c then String c (keepSlugChars rest) else keepSlugChars rest
  end.

(** [s || fallback] on strings: the empty string is falsy. *)
Definition orElse (s fallback : string) : string :=
  if s =? "" then fallback else s.

(** *** Statements that have effects and may throw *)

(** A computation is what it returns or throws, and the effects it had in
    the world, oldest first.  What the world answers is fixed beforehand, by
    the interfaces below. *)
Definition Comp (E X A : Type) : Type := (A + X) * list E.

Definition ret {E X A : Type} (a : A) : Comp E X A := (inl a, []).

Definition throw {E X A : Type} (x : X) : Comp E X A := (inr x, []).

Definition perform {E X : Type} (e : E) : Comp E X unit := (inl tt, [e]).

Definition bind {E X A B : Type} (m : Comp E X A) (k : A -> Comp E X B) : Comp E X B :=
  match m with
  | (inl a, done) => let (result, more) := k a in (result, done ++ more)
  | (inr x, done) => (inr x, done)
  end.

(** [try { body } catch (x) { handler }]. *)
Definition try_catch {E X Y A : Type} (body : Comp E X A) (handler : X -> Comp E Y A)
  : Comp E Y A :=
  match body with
  | (inl a, done) => (inl a, done)
  | (inr x, done) => let (result, more) := handler x in (result, done ++ more)
  end.

(** [await p]: the value of a fulfilled promise, the reason of a rejected one
    thrown. *)
Definition await {E A : Type} (p : Settled A) : Comp E Thrown A :=
  match p with
  | Fulfilled value => ret value
  | Rejected reason => throw reason
  end.

(** An [async] function: its promise is fulfilled with what the body returns
    and rejected with what it throws. *)
Definition async {E A : Type} (body : Comp E Thrown A) : Settled A * list E :=
  match body with
  | (inl a, done) => (Fulfilled a, done)
  | (inr reason, done) => (Rejected reason, done)
  end.

Declare Scope comp_scope.
Delimit Scope comp_scope with comp.
Notation "x <- m ;; k" := (bind m (fun x => k))
  (at level 61, m at next level, right associativity) : comp_scope.
Notation "m ;; k" := (bind m (fun _ => k))
  (at level 61, right associativity) : comp_scope.

End JS.
Import JS.

(** ** [types.ts] *)

Module types.

Record GeneratedFile : Type := mkFile { name : string; content : string }.

End types.
Export types.

(** ** [services/geminiService.ts] *)

Module geminiService.

Inductive SchemaType : Type := OBJECT | ARRAY | STRING.

Inductive Schema : Type := mkSchema {
  type : SchemaType;
  description : option string;
  properties : list (string * Schema);
  items : option Schema;
  required : list string }.

Inductive Part : Type :=
| text_part (text : string)
| inlineData (mimeType data : string).

Record GenerateContentConfig : Type := {
  systemInstruction : string;
  responseMimeType : string;
  responseSchema : Schema;
  temperature : Number }.

Record GenerateContentParameters : Type := {
  model_of : string;
  parts : list Part;
  config : GenerateContentConfig }.

(** The response of the SDK, as far as the repository reads it: its [text]
    getter gives the text of the answer, and [undefined] ([None]) for an
    answer without text. *)
Record GenerateContentResponse : Type := { text : option string }.

Record InputPayload : Type := { prompt : string; existingFiles : list GeneratedFile }.

(** The host's JSON codec: [JSON_parse] is [None] where [JSON.parse] throws a
    SyntaxError. *)
Class Json : Type := {
  JSON_parse : string -> option JSValue;
  JSON_stringify : InputPayload -> string }.

(** The remote model behind [ai.models.generateContent]: how the promise of
    a call settles. *)
Class Remote : Type := {
  generateContent : GenerateContentParameters -> Settled GenerateContentResponse }.

(** What [generateScriptBundle] does that can be observed from outside. *)
Inductive Effect : Type :=
| ai_models_generateContent (request : GenerateContentParameters)
| console_error (label detail : string).

(** The calls to the API among the effects, in order. *)
Definition calls (effects : list Effect) : list GenerateContentParameters :=
  flat_map (fun e => match e with
                     | ai_models_generateContent request => [request]
                     | console_error _ _ => []
                     end) effects.

Definition model : string := "gemini-2.5-flash".

Definition schema : Schema :=
  mkSchema OBJECT None
    [ ("files",
       mkSchema ARRAY
         (Some "The complete and updated array of all file objects for the project. If modifying, return all files, not just the changed ones.")
         []
         (Some (mkSchema OBJECT None
            [ ("name",
               mkSchema STRING
                 (Some "The full file path, including any subdirectories (e.g., 'src/index.js', 'package.json').")
                 [] None []);
              ("content",
               mkSchema STRING
                 (Some "The complete code or text content of the file.")
                 [] None []) ]
            None
            ["name"; "content"]))
         []) ]
    None
    ["files"].

Definition the_systemInstruction : string :=
  "You are a Staff-level Engineering Co-pilot, a world-class expert in software architecture, design patterns, and code generation. Your primary goal is to generate and iteratively refine complete, production-grade project scaffolds that are scalable, maintainable, and robust.

**ARCHITECTURAL PHILOSOPHY (NEW & CRITICAL):**

1.  **Modularity First:** For any non-trivial request, you MUST break the application into logical modules and components. Do not put all logic in a single file. For a web server, this means separate files for routes, controllers, services, and configuration. For a bot, separate command handlers from the main client logic.
2.  **Scalability:** Think ahead. Assume the user's project will grow. Use environment variables for configuration from the start ('.env.example'). Structure the code so that adding new features (e.g., new API endpoints, new bot commands) is intuitive and requires minimal refactoring.
3.  **Maintainability:** Generate clean, readable, and well-documented code. Use clear variable names and add comments for complex logic. The generated 'README.md' must be comprehensive.

**CORE DIRECTIVES:**

1.  **Iterative Development:** You will receive the current set of project files and a new prompt. Your task is to MODIFY the existing files or ADD new ones to meet the new request. Always return the COMPLETE, updated project structure.
2.  **Superior Dependency Selection:** Act as if you have real-time access to NPM, GitHub, and other package repositories. You MUST select modern, robust, and **highly compatible** dependencies. Prioritize mainstream libraries with strong community support. For example, for a Node.js web server, prefer Express or Fastify. For a Discord bot, use discord.js. This is your most important task.
3.  **Modern Standards:**
    *   For JavaScript/TypeScript, you MUST use the specified Module System. Default to **ES Modules (ESM)** if not specified. This means using '" ++ dq ++ "type" ++ dq ++ ": " ++ dq ++ "module" ++ dq ++ "' in 'package.json' and 'import/export' syntax.
    *   Code must be clean, executable, and production-ready. **NO placeholder logic, TODOs, or commented-out code blocks.**
4.  **Image-Based Debugging:** If the user provides an image, it is almost certainly a **screenshot of an error**.
    *   Analyze the error message in the image (stack trace, compiler error, etc.).
    *   Cross-reference the error with the relevant code in the provided 'existingFiles'.
    *   Deduce the root cause and FIX the code directly. Your response MUST be the updated set of files with the fix applied.
5.  **Full Database Integration:** If a database is requested, you must fully integrate it: include the correct driver, generate configuration files that use environment variables, provide a complete '.env.example', and include clear example connection and query logic in the main script.
6.  **Mandatory Files (for Node.js):**
    *   **'package.json'**: Must be valid JSON with name, version, type, main, scripts, and all necessary dependencies.
    *   **Main script (e.g., 'src/index.js')**: The entry point.
    *   **'README.md'**: Clear, step-by-step setup and run instructions.
    *   **'.gitignore'**: Standard ignores ('node_modules', '.env', etc.).

**INPUT FORMAT:**

You will receive a JSON object containing 'existingFiles' and the user's 'prompt'.

**YOUR RESPONSE MUST BE a JSON object matching the required schema, containing the full, updated list of project files.**".

(** 0.3 as the double nearest to it. *)
Definition temperature_0_3 : Number := Finite 5404319552844595 (-54).

Definition empty_response_message : string :=
  "API returned an empty response. Please try rephrasing your request.".
Definition unexpected_structure_message : string :=
  "API did not return the expected file structure.".
Definition invalid_format_message : string :=
  "The API returned an invalid format. This might be due to a complex or unsupported request.".

(** What the [catch] clause can receive from the [try] block. *)
Inductive Caught : Type :=
| SyntaxError
| TypeError
| Raised (message : string).

Section WithHost.
Context {engine : Engine} {json : Json} {remote : Remote}.
Local Open Scope comp_scope.

(** [response.text.trim()]. *)
Definition text_trim (response : GenerateContentResponse) : Comp Effect Thrown string :=
  match text response with
  | Some responseText => ret (trim responseText)
  | None => throw (Error (cannot_read_property Undefined "trim"))
  end.

(** [JSON.parse(jsonString)]. *)
Definition parse (jsonString : string) : Comp Effect Caught JSValue :=
  match JSON_parse jsonString with
  | Some parsed => ret parsed
  | None => throw SyntaxError
  end.

(** [parsed.files]. *)
Definition files_of (parsed : JSValue) : Comp Effect Caught JSValue :=
  match get_files parsed with
  | Some files => ret files
  | None => throw TypeError
  end.

(** The body of the [try] block. *)
Definition parse_files (jsonString : string) : Comp Effect Caught JSValue :=
  parsed <- parse jsonString ;;
  files <- files_of parsed ;;
  if negb (truthy files) || negb (isArray files)
  then throw (Raised unexpected_structure_message)
  else ret files.

Definition generateScriptBundle (prompt : string) (existingFiles : list GeneratedFile)
  (imageBase64 : option string) : Settled JSValue * list Effect :=
  async (
    let inputPayload := {| prompt := prompt; existingFiles := existingFiles |} in
    let contents :=
      [ text_part ("Here is the current state and the user's request. Your task is to return the new, complete state of the project files based on your core directives."
                   ++ nl ++ nl ++ JSON_stringify inputPayload) ] in
    let contents :=
      match imageBase64 with
      | Some data =>
          if negb (data =? "")
          then contents ++ [ inlineData "image/png" data ]
          else contents
      | None => contents
      end in
    let request :=
      {| model_of := model;
         parts := contents;
         config := {| systemInstruction := the_systemInstruction;
                      responseMimeType := "application/json";
                      responseSchema := schema;
                      temperature := temperature_0_3 |} |} in
    perform (ai_models_generateContent request) ;;
    response <- await (generateContent request) ;;
    jsonString <- text_trim response ;;
    if jsonString =? "" then throw (Error empty_response_message)
    else
      try_catch (parse_files jsonString)
        (fun e =>
           perform (console_error "Failed to parse JSON response:" jsonString) ;;
           throw (Error invalid_format_message))).

(** The spec's wording of an empty or malformed answer: the trimmed text is
    empty, or is not JSON, or parses to a value without an array under
    [files]. *)
Definition emptyOrMalformed (responseText : string) : Prop :=
  trim responseText = ""
  \/ JSON_parse (trim responseText) = None
  \/ exists parsed, JSON_parse (trim responseText) = Some parsed
                    /\ forall items, get_files parsed <> Some (Array items).

End WithHost.

(** A codec to run examples with: it reads the one text
    [{"files":[null,{"name":"a"},7]}] and nothing else. *)
Definition exampleText : string :=
  "{" ++ dq ++ "files" ++ dq ++ ":[null,{" ++ dq ++ "name" ++ dq ++ ":" ++ dq ++ "a" ++ dq ++ "},7]}".

Definition exampleItems : list JSValue :=
  [ Null; Object [("name", Str "a")]; Num (Finite 7 0) ].

Definition exampleJson : Json :=
  {| JSON_parse := fun s => if s =? exampleText
                            then Some (Object [("files", Array exampleItems)])
                            else None;
     JSON_stringify := fun _ => "{}" |}.

(** A remote model that answers every call with that text, in white space. *)
Definition exampleRemote : Remote :=
  {| generateContent := fun _ => Fulfilled {| text := Some (" " ++ exampleText ++ nl)%string |} |}.

(** A remote model whose answers carry no text. *)
Definition silentRemote : Remote :=
  {| generateContent := fun _ => Fulfilled {| text := None |} |}.

End geminiService.

(** ** [utils/zipUtils.ts] *)

Module zipUtils.

(** The statements of the [try] block that call into the browser.  [link] is
    the anchor made by the first of them. *)
Inductive DomCall (Blob : Type) : Type :=
| createElement (tagName : string)
| createObjectURL (blob : Blob)
| set_download (zipName : string)
| appendChild
| click
| removeChild
| revokeObjectURL.
Arguments createElement {Blob} tagName.
Arguments createObjectURL {Blob} blob.
Arguments set_download {Blob} zipName.
Arguments appendChild {Blob}.
Arguments click {Blob}.
Arguments removeChild {Blob}.
Arguments revokeObjectURL {Blob}.

(** The archive library and the browser.  A [JSZip] instance is known by the
    [file(name, data)] calls made on it, oldest first; on strings [file]
    itself only records the entry and returns, whatever the strings are, and
    what the library makes of the entries shows in [generateAsync].  What
    [file] does with a name or data that is no string is the library's to
    say, [file_of_other]: it returns ([None]) or throws.  A DOM call
    completes ([None]) or throws. *)
Class Browser : Type := {
  Blob : Type;
  file_of_other : JSValue -> JSValue -> option Thrown;
  generateAsync : list (JSValue * JSValue) -> Settled Blob;
  dom : DomCall Blob -> option Thrown }.

(** What [createAndDownloadZip] does that can be observed from outside. *)
Inductive Effect (Blob : Type) : Type :=
| zip_file (name data : JSValue)
| zip_generateAsync (entries : list (JSValue * JSValue))
| dom_call (call : DomCall Blob)
| console_error (label : string) (reason : Thrown).
Arguments zip_file {Blob} name data.
Arguments zip_generateAsync {Blob} entries.
Arguments dom_call {Blob} call.
Arguments console_error {Blob} label reason.

(** A file of the declared type [GeneratedFile], as the value it is when the
    program runs.  The array [createAndDownloadZip] receives is declared to
    hold such values and holds what [generateScriptBundle] returned. *)
Definition value_of (f : GeneratedFile) : JSValue :=
  Object [ ("name", Str (name f)); ("content", Str (content f)) ].

(** The entry [zip.file(file.name, file.content)] records for such a file. *)
Definition entry (f : GeneratedFile) : JSValue * JSValue := (Str (name f), Str (content f)).

Section WithBrowser.
Context {engine : Engine} {browser : Browser}.
Local Open Scope comp_scope.

(** [file.name] and [file.content]. *)
Definition property (key : string) (v : JSValue) : Comp (Effect Blob) Thrown JSValue :=
  match get key v with
  | Some value => ret value
  | None => throw (Error (cannot_read_property v key))
  end.

(** How a call [zip.file(name, data)] completes. *)
Definition file_outcome (name data : JSValue) : option Thrown :=
  match name, data with
  | Str _, Str _ => None
  | _, _ => file_of_other name data
  end.

(** [zip.file(name, data)] on a zip that holds [zip]: it returns the zip. *)
Definition file (zip : list (JSValue * JSValue)) (name data : JSValue)
  : Comp (Effect Blob) Thrown (list (JSValue * JSValue)) :=
  perform (zip_file name data) ;;
  match file_outcome name data with
  | None => ret (zip ++ [(name, data)])
  | Some reason => throw reason
  end.

(** [await zip.generateAsync({ type: 'blob' })]. *)
Definition generateAsync_blob (zip : list (JSValue * JSValue))
  : Comp (Effect Blob) Thrown Blob :=
  perform (zip_generateAsync zip) ;;
  await (generateAsync zip).

(** A statement that calls into the DOM. *)
Definition statement (call : DomCall Blob) : Comp (Effect Blob) Thrown unit :=
  perform (dom_call call) ;;
  match dom call with
  | None => ret tt
  | Some reason => throw reason
  end.

(** [files.forEach(file => { zip.file(file.name, file.content); })]: the
    arguments are read from left to right, then the call is made. *)
Fixpoint forEach_file (files : list JSValue) (zip : list (JSValue * JSValue))
  : Comp (Effect Blob) Thrown (list (JSValue * JSValue)) :=
  match files with
  | [] => ret zip
  | f :: rest =>
      name <- property "name" f ;;
      data <- property "content" f ;;
      zip <- file zip name data ;;
      forEach_file rest zip
  end.

(** The [try] block. *)
Definition try_download (zip : list (JSValue * JSValue)) (zipName : string)
  : Comp (Effect Blob) Thrown unit :=
  blob <- generateAsync_blob zip ;;
  statement (createElement "a") ;;
  statement (createObjectURL blob) ;;
  statement (set_download zipName) ;;
  statement appendChild ;;
  statement click ;;
  statement removeChild ;;
  statement revokeObjectURL.

Definition createAndDownloadZip (files : list JSValue) (zipName : string)
  : Settled unit * list (Effect Blob) :=
  async (
    let zip : list (JSValue * JSValue) := [] in
    zip <- forEach_file files zip ;;
    try_catch (try_download zip zipName)
      (fun error => perform (console_error "Error creating ZIP file:" error))).

(** What [zip.file] is called with for an element of the array, when the
    element is neither [null] nor [undefined]. *)
Definition arguments_of (f : JSValue) : option (JSValue * JSValue) :=
  match get "name" f, get "content" f with
  | Some name, Some data => Some (name, data)
  | _, _ => None
  end.

(** An element that the loop takes: its properties can be read and
    [zip.file] returns on them. *)
Definition accepted (f : JSValue) : bool :=
  match arguments_of f with
  | Some (name, data) =>
      match file_outcome name data with
      | None => true
      | Some _ => false
      end
  | None => false
  end.

End WithBrowser.

(** The entries of a list of elements, in order. *)
Definition entries_of (files : list JSValue) : list (JSValue * JSValue) :=
  flat_map (fun f => match arguments_of f with
                     | Some arguments => [arguments]
                     | None => []
                     end) files.

(** The [file] calls among the effects, in order. *)
Definition added_entries {Blob : Type} (effects : list (Effect Blob))
  : list (JSValue * JSValue) :=
  flat_map (fun e => match e with zip_file n d => [(n, d)] | _ => [] end) effects.

End zipUtils.

(** ** The application component *)

Module App.

(** *** The file tree *)

(** A node of the tree.  A folder's [children] is a JavaScript array, which
    is an object: [children] holds its indexed elements, which is what
    [length], [map] and iteration see, and [properties] the properties it
    carries under other keys, in insertion order. *)
Inductive FileTreeNode : Type :=
| file (name : string) (path : string)
| folder (name : string) (children : list FileTreeNode)
         (properties : list (string * FileTreeNode)).

Definition node_name (node : FileTreeNode) : string :=
  match node with
  | file name _ => name
  | folder name _ _ => name
  end.

(** How [buildFileTree] completes. *)
Inductive Completion (A : Type) : Type :=
| Normal (value : A)
| ThrowsTypeError
| Unsupported.
Arguments Normal {A} value.
Arguments ThrowsTypeError {A}.
Arguments Unsupported {A}.

(** Names that [Object.prototype] or [Array.prototype] define, or that an
    array owns. *)
Definition builtinNames : list string :=
  [ "__proto__"; "constructor"; "hasOwnProperty"; "isPrototypeOf";
    "propertyIsEnumerable"; "toLocaleString"; "toString"; "valueOf";
    "__defineGetter__"; "__defineSetter__"; "__lookupGetter__"; "__lookupSetter__";
    "length"; "at"; "concat"; "copyWithin"; "entries"; "every"; "fill"; "filter";
    "find"; "findIndex"; "findLast"; "findLastIndex"; "flat"; "flatMap"; "forEach";
    "group"; "groupBy"; "groupToMap"; "includes"; "indexOf"; "join"; "keys";
    "lastIndexOf"; "map"; "pop"; "push"; "reduce"; "reduceRight"; "reverse";
    "shift"; "slice"; "some"; "sort"; "splice"; "toReversed"; "toSorted";
    "toSpliced"; "unshift"; "values"; "with" ].

Definition isDigit (c : ascii) : bool :=
  let n := nat_of_ascii c in ((48 <=? n) && (n <=? 57))%nat.

Fixpoint allDigits (s : string) : bool :=
  match s with
  | EmptyString => true
  | String c rest => isDigit c && allDigits rest
  end.

(** A key is plain when [level[key]] is an own data property or nothing, on
    an object literal and on an array alike: it names no built-in and cannot
    be an array index.  On other keys the host's prototype chain and array
    semantics decide, which this development leaves out: [place] stops with
    [Unsupported] there. *)
Definition plainKey (key : string) : bool :=
  negb (existsb (String.eqb key) builtinNames)
  && ((key =? "") || negb (allDigits key)).

Fixpoint getProperty (key : string) (level : list (string * FileTreeNode))
  : option FileTreeNode :=
  match level with
  | [] => None
  | (k, node) :: rest => if k =? key then Some node else getProperty key rest
  end.

(** [level[key] = node]: an existing key keeps its place, a new one comes last. *)
Fixpoint setProperty (key : string) (node : FileTreeNode)
  (level : list (string * FileTreeNode)) : list (string * FileTreeNode) :=
  match level with
  | [] => [(key, node)]
  | (k, old) :: rest =>
      if k =? key then (k, node) :: rest else (k, old) :: setProperty key node rest
  end.

(** The inner [parts.forEach] for the file called [path], from [currentLevel]
    on.  The last part is the file; a part before it is a directory, made
    when [currentLevel] has nothing under that key, and the walk goes on in
    the [children] of what is there: of the folder, or [undefined] when a
    file is there, on which the next access throws. *)
Fixpoint place (path : string) (parts : list string)
  (currentLevel : list (string * FileTreeNode))
  : Completion (list (string * FileTreeNode)) :=
  match parts with
  | [] => Normal currentLevel
  | part :: rest =>
      if negb (plainKey part) then Unsupported
      else
        match rest with
        | [] => Normal (setProperty part (file part path) currentLevel)
        | _ :: _ =>
            let currentLevel :=
              match getProperty part currentLevel with
              | None => setProperty part (folder part [] []) currentLevel
              | Some _ => currentLevel
              end in
            match getProperty part currentLevel with
            | Some (folder folderName elements deeper) =>
                match place path rest deeper with
                | Normal deeper' =>
                    Normal (setProperty part (folder folderName elements deeper') currentLevel)
                | ThrowsTypeError => ThrowsTypeError
                | Unsupported => Unsupported
                end
            | Some (file _ _) => ThrowsTypeError
            | None => ThrowsTypeError (* not reached: the key is set by now *)
            end
        end
  end.

(** The outer [files.forEach]. *)
Fixpoint placeAll (files : list GeneratedFile) (root : list (string * FileTreeNode))
  : Completion (list (string * FileTreeNode)) :=
  match files with
  | [] => Normal root
  | f :: rest =>
      match place (name f) (split "/" (name f)) root with
      | Normal root' => placeAll rest root'
      | ThrowsTypeError => ThrowsTypeError
      | Unsupported => Unsupported
      end
  end.

(** The host's collation: [a.localeCompare(b)]. *)
Class Collation : Type := { localeCompare : string -> string -> Z }.

Section WithCollation.
Context {collation : Collation}.

(** The comparator given to [sort]. *)
Definition compareNodes (a b : FileTreeNode) : Z :=
  match a, b with
  | folder _ _ _, file _ _ => (-1)%Z
  | file _ _, folder _ _ _ => 1%Z
  | _, _ => localeCompare (node_name a) (node_name b)
  end.

(** [Array.prototype.sort] is stable; under a comparator that is a
    consistent ordering, as a collation is, every stable sort returns the
    list that inserting the elements one after the other does. *)
Fixpoint insertSorted (x : FileTreeNode) (sorted : list FileTreeNode) : list FileTreeNode :=
  match sorted with
  | [] => [x]
  | y :: rest =>
      if (compareNodes x y <? 0)%Z then x :: y :: rest else y :: insertSorted x rest
  end.

Definition sort (nodes : list FileTreeNode) : list FileTreeNode :=
  fold_left (fun sorted x => insertSorted x sorted) nodes [].

(** [Object.values(node).sort(...)]. *)
Definition treeToArray (node : list (string * FileTreeNode)) : list FileTreeNode :=
  sort (map snd node).

Definition buildFileTree (files : list GeneratedFile) : Completion (list FileTreeNode) :=
  match placeAll files [] with
  | Normal root => Normal (treeToArray root)
  | ThrowsTypeError => ThrowsTypeError
  | Unsupported => Unsupported
  end.

End WithCollation.

(** The files a consumer of the tree meets, with their depth, when it goes
    from a folder to its [children] as [FileTreeItem] does with
    [node.children.map]. *)
Fixpoint listedFiles (depth : nat) (node : FileTreeNode) : list (nat * string) :=
  match node with
  | file _ path => [(depth, path)]
  | folder _ children _ => flat_map (listedFiles (S depth)) children
  end.

Definition treeFiles (tree : list FileTreeNode) : list (nat * string) :=
  flat_map (listedFiles 1) tree.

(** Following a path by property access instead: the node called by the first
    part among [nodes], then [children[part]] for each further part. *)
Fixpoint resolveIn (parts : list string) (level : list (string * FileTreeNode))
  : option FileTreeNode :=
  match parts with
  | [] => None
  | part :: rest =>
      match getProperty part level, rest with
      | Some node, [] => Some node
      | Some (folder _ _ deeper), _ :: _ => resolveIn rest deeper
      | _, _ => None
      end
  end.

Definition resolve (parts : list string) (tree : list FileTreeNode) : option FileTreeNode :=
  resolveIn parts (map (fun node => (node_name node, node)) tree).

(** *** Vocabulary for stating what the tree holds *)

(** [file.name.split('/')]. *)
Definition pathParts (f : GeneratedFile) : list string := split "/" (name f).

(** The inverse of [split]: the parts with the separator between them. *)
Fixpoint join (sep : ascii) (parts : list string) : string :=
  match parts with
  | [] => ""
  | part :: rest =>
      match rest with
      | [] => part
      | _ :: _ => part ++ String sep (join sep rest)
      end
  end.

(** Two paths are comparable when one runs along the other: they are equal,
    or one names a folder on the way to the other. *)
Fixpoint comparable (p q : list string) : bool :=
  match p, q with
  | a :: p', b :: q' => (a =? b) && comparable p' q'
  | _, _ => true
  end.

(** Every folder of the node has an empty [children] array. *)
Fixpoint emptyChildren (node : FileTreeNode) : bool :=
  match node with
  | file _ _ => true
  | folder _ children deeper =>
      match children with
      | [] => forallb (fun '(_, below) => emptyChildren below) deeper
      | _ :: _ => false
      end
  end.

(** The shape of a level that walks keep: keys are node names and occur
    once, and the arrays of the folders are empty. *)
Definition shaped (level : list (string * FileTreeNode)) : Prop :=
  NoDup (map fst level)
  /\ forall key node, In (key, node) level ->
                      node_name node = key /\ emptyChildren node = true.

(** The files placed so far are the files of the level, each at the path
    its name spells. *)
Definition holds (placed : list GeneratedFile) (level : list (string * FileTreeNode)) : Prop :=
  forall r n p,
    resolveIn r level = Some (file n p)
    <-> exists f, In f placed /\ pathParts f = r /\ n = last r "" /\ p = name f.

(** No part of a name is a key the model leaves out. *)
Definition plainNames (files : list GeneratedFile) : Prop :=
  forall f, In f files -> Forall (fun part => plainKey part = true) (pathParts f).

(** No file is named as a folder on the way to another: comparable paths
    are equal. *)
Definition conflictFree (files : list GeneratedFile) : Prop :=
  forall f g, In f files -> In g files ->
              comparable (pathParts f) (pathParts g) = true -> pathParts f = pathParts g.

(** A collation to run examples with: the order of the code units, which
    is the order of a locale on names in lower-case letters. *)
Definition byCodeUnit : Collation :=
  {| localeCompare := fun a b => match String.compare a b with
                                 | Lt => (-1)%Z
                                 | Eq => 0%Z
                                 | Gt => 1%Z
                                 end |}.

(** A project in which one name comes twice. *)
Definition exampleProject : list GeneratedFile :=
  [ mkFile "package.json" "{}"; mkFile "src/index.js" "import './lib/db.js'";
    mkFile "src/lib/db.js" "export {}"; mkFile "index.html" "<html>";
    mkFile "package.json" "{ }" ].

(** *** Component state *)

Record Image : Type := { file_name : string; preview : string; base64 : string }.

Inductive MessageType : Type := user | ai | system.

Record Message : Type := {
  type : MessageType;
  content : string;
  files : option (list GeneratedFile) }.

(** The [useState] cells of the component. *)
Record State : Type := {
  prompt : string;
  language : string;
  platform : string;
  moduleSystem : string;
  database : string;
  image : option Image;
  chatHistory : list Message;
  isFirstRequest : bool;
  isLoading : bool;
  error : string;
  viewingFile : option GeneratedFile }.

Definition initialState : State :=
  {| prompt := ""; language := "javascript"; platform := "web"; moduleSystem := "esm";
     database := "none"; image := None; chatHistory := []; isFirstRequest := true;
     isLoading := false; error := ""; viewingFile := None |}.

Definition setPrompt (v : string) (s : State) : State :=
  {| prompt := v; language := language s; platform := platform s;
     moduleSystem := moduleSystem s; database := database s; image := image s;
     chatHistory := chatHistory s; isFirstRequest := isFirstRequest s;
     isLoading := isLoading s; error := error s; viewingFile := viewingFile s |}.

Definition setLanguage (v : string) (s : State) : State :=
  {| prompt := prompt s; language := v; platform := platform s;
     moduleSystem := moduleSystem s; database := database s; image := image s;
     chatHistory := chatHistory s; isFirstRequest := isFirstRequest s;
     isLoading := isLoading s; error := error s; viewingFile := viewingFile s |}.

Definition setPlatform (v : string) (s : State) : State :=
  {| prompt := prompt s; language := language s; platform := v;
     moduleSystem := moduleSystem s; database := database s; image := image s;
     chatHistory := chatHistory s; isFirstRequest := isFirstRequest s;
     isLoading := isLoading s; error := error s; viewingFile := viewingFile s |}.

Definition setModuleSystem (v : string) (s : State) : State :=
  {| prompt := prompt s; language := language s; platform := platform s;
     moduleSystem := v; database := database s; image := image s;
     chatHistory := chatHistory s; isFirstRequest := isFirstRequest s;
     isLoading := isLoading s; error := error s; viewingFile := viewingFile s |}.

Definition setDatabase (v : string) (s : State) : State :=
  {| prompt := prompt s; language := language s; platform := platform s;
     moduleSystem := moduleSystem s; database := v; image := image s;
     chatHistory := chatHistory s; isFirstRequest := isFirstRequest s;
     isLoading := isLoading s; error := error s; viewingFile := viewingFile s |}.

Definition setImage (v : option Image) (s : State) : State :=
  {| prompt := prompt s; language := language s; platform := platform s;
     moduleSystem := moduleSystem s; database := database s; image := v;
     chatHistory := chatHistory s; isFirstRequest := isFirstRequest s;
     isLoading := isLoading s; error := error s; viewingFile := viewingFile s |}.

(** [setChatHistory(prev => ...)]. *)
Definition setChatHistory (update : list Message -> list Message) (s : State) : State :=
  {| prompt := prompt s; language := language s; platform := platform s;
     moduleSystem := moduleSystem s; database := database s; image := image s;
     chatHistory := update (chatHistory s); isFirstRequest := isFirstRequest s;
     isLoading := isLoading s; error := error s; viewingFile := viewingFile s |}.

Definition setIsFirstRequest (v : bool) (s : State) : State :=
  {| prompt := prompt s; language := language s; platform := platform s;
     moduleSystem := moduleSystem s; database := database s; image := image s;
     chatHistory := chatHistory s; isFirstRequest := v;
     isLoading := isLoading s; error := error s; viewingFile := viewingFile s |}.

Definition setIsLoading (v : bool) (s : State) : State :=
  {| prompt := prompt s; language := language s; platform := platform s;
     moduleSystem := moduleSystem s; database := database s; image := image s;
     chatHistory := chatHistory s; isFirstRequest := isFirstRequest s;
     isLoading := v; error := error s; viewingFile := viewingFile s |}.

Definition setError (v : string) (s : State) : State :=
  {| prompt := prompt s; language := language s; platform := platform s;
     moduleSystem := moduleSystem s; database := database s; image := image s;
     chatHistory := chatHistory s; isFirstRequest := isFirstRequest s;
     isLoading := isLoading s; error := v; viewingFile := viewingFile s |}.

Definition setViewingFile (v : option GeneratedFile) (s : State) : State :=
  {| prompt := prompt s; language := language s; platform := platform s;
     moduleSystem := moduleSystem s; database := database s; image := image s;
     chatHistory := chatHistory s; isFirstRequest := isFirstRequest s;
     isLoading := isLoading s; error := error s; viewingFile := v |}.

(** *** Submitting *)

Definition hasFiles (m : Message) : bool :=
  match files m with
  | Some _ => true
  | None => false
  end.

(** [[...chatHistory].reverse().find(m => m.files)?.files]. *)
Definition latestFiles (history : list Message) : option (list GeneratedFile) :=
  match find hasFiles (rev history) with
  | Some m => files m
  | None => None
  end.

Definition constructFullPrompt (s : State) : string :=
  if isFirstRequest s then
    "**Initial Project Specifications:**" ++ nl ++ "- Language: " ++ language s ++ nl
    ++ "- Platform: " ++ platform s ++ nl
    ++ (if existsb (String.eqb (language s)) ["javascript"; "typescript"]
        then "- Module System: " ++ moduleSystem s else "")
    ++ nl ++ "- Database: " ++ database s ++ nl ++ nl ++ "**User Request:**" ++ nl ++ prompt s
  else "**Follow-up Request:**" ++ nl ++ prompt s.

(** A call [generateScriptBundle(currentPrompt, currentFiles, image?.base64)]
    that has not settled, with what the rest of [handleSubmit] keeps from the
    render it was started in. *)
Record Request : Type := {
  currentPrompt : string;
  currentFiles : list GeneratedFile;
  imageBase64 : option string;
  wasFirstRequest : bool }.

(** [handleSubmit] up to its [await]: the state after the batched updates,
    and the request started, if any. *)
Definition handleSubmit (s : State) : State * option Request :=
  if (trim (prompt s) =? "") || isLoading s then (s, None)
  else
    let currentPrompt := constructFullPrompt s in
    let currentFiles := match latestFiles (chatHistory s) with
                        | Some fs => fs
                        | None => []
                        end in
    let userMessage :=
      {| type := user; content := prompt s;
         files := match image s with
                  | Some img => Some [ mkFile (file_name img) "User uploaded an image." ]
                  | None => None
                  end |} in
    let s' := setChatHistory (fun prev => prev ++ [userMessage]) s in
    let s' := setIsLoading true s' in
    let s' := setError "" s' in
    let s' := setPrompt "" s' in
    let s' := setImage None s' in
    (s', Some {| currentPrompt := currentPrompt;
                 currentFiles := currentFiles;
                 imageBase64 := option_map base64 (image s);
                 wasFirstRequest := isFirstRequest s |}).

(** [handleSubmit] from the [await] on, on the state of that moment.
    [outcome] is how the promise of [generateScriptBundle] has settled, a
    fulfilled value being read at the type the source declares for it. *)
Definition handleSubmit_settled (request : Request) (outcome : Settled (list GeneratedFile))
  (s : State) : State :=
  let s' :=
    match outcome with
    | Fulfilled result =>
        let s' := setChatHistory
                    (fun prev => prev ++ [ {| type := ai;
                                              content := "Project files are ready or have been updated.";
                                              files := Some result |} ]) s in
        if wasFirstRequest request then setIsFirstRequest false s' else s'
    | Rejected err =>
        let errorMessage := match err with
                            | Error message => message
                            | NotAnError => "An unknown error occurred."
                            end in
        let s' := setError errorMessage s in
        setChatHistory
          (fun prev => prev ++ [ {| type := system; content := "Error: " ++ errorMessage;
                                    files := None |} ]) s'
    end in
  setIsLoading false s'.

(** *** The component as a transition system *)

(** The component between two events: its state and the calls awaited. *)
Record Running : Type := { state : State; inFlight : list Request }.

Inductive Event : Type :=
| submit
| settle (index : nat) (outcome : Settled (list GeneratedFile))
| changePrompt (v : string)
| changeLanguage (v : string)
| changePlatform (v : string)
| changeModuleSystem (v : string)
| changeDatabase (v : string)
| changeImage (v : option Image)
| view (v : option GeneratedFile).

Fixpoint removeAt {A : Type} (index : nat) (l : list A) : list A :=
  match l, index with
  | [], _ => []
  | _ :: rest, O => rest
  | x :: rest, S i => x :: removeAt i rest
  end.

Definition step (r : Running) (e : Event) : Running :=
  match e with
  | submit =>
      let (s', started) := handleSubmit (state r) in
      {| state := s';
         inFlight := match started with
                     | Some request => inFlight r ++ [request]
                     | None => inFlight r
                     end |}
  | settle index outcome =>
      match nth_error (inFlight r) index with
      | Some request =>
          {| state := handleSubmit_settled request outcome (state r);
             inFlight := removeAt index (inFlight r) |}
      | None => r
      end
  | changePrompt v => {| state := setPrompt v (state r); inFlight := inFlight r |}
  | changeLanguage v => {| state := setLanguage v (state r); inFlight := inFlight r |}
  | changePlatform v => {| state := setPlatform v (state r); inFlight := inFlight r |}
  | changeModuleSystem v => {| state := setModuleSystem v (state r); inFlight := inFlight r |}
  | changeDatabase v => {| state := setDatabase v (state r); inFlight := inFlight r |}
  | changeImage v => {| state := setImage v (state r); inFlight := inFlight r |}
  | view v => {| state := setViewingFile v (state r); inFlight := inFlight r |}
  end.

Definition initial : Running := {| state := initialState; inFlight := [] |}.

(** The spec's wording of the file set to re-submit: the files of the latest
    assistant turn, and the empty list when there is none. *)
Definition isAssistant (m : Message) : bool :=
  match type m with
  | ai => true
  | _ => false
  end.

Definition latestResponseFiles (history : list Message) : list GeneratedFile :=
  match find isAssistant (rev history) with
  | Some m => match files m with
              | Some fs => fs
              | None => []
              end
  | None => []
  end.

(** The snapshot a user turn carries for an attached image. *)
Definition imagePlaceholder (img : Image) : list GeneratedFile :=
  [ mkFile (file_name img) "User uploaded an image." ].

(** The turns a state has that an earlier one had not. *)
Definition appended (before after : State) : list Message :=
  skipn (List.length (chatHistory before)) (chatHistory after).

(** A screenshot and two generated files, to run examples with. *)
Definition screenshot : Image :=
  {| file_name := "error.png"; preview := "blob:preview"; base64 := "iVBORw0KGgo=" |}.

Definition generated : list GeneratedFile :=
  [ mkFile "package.json" "{}"; mkFile "src/index.js" "console.log(1)" ].

(** A session: a project is generated, a screenshot of an error is sent and
    that request fails, and the user asks again. *)
Definition retryAfterFailedScreenshot : list Event :=
  [ changePrompt "make a bot"; submit; settle 0 (Fulfilled generated);
    changeImage (Some screenshot); changePrompt "fix this error"; submit;
    settle 0 (Rejected (Error "The API returned an invalid format. This might be due to a complex or unsupported request."));
    changePrompt "try again"; submit ].

(** What the turns of a history carry: an assistant turn a snapshot, a system
    turn none. *)
Definition turnShape (m : Message) : Prop :=
  match type m with
  | ai => files m <> None
  | system => files m = None
  | user => True
  end.

(** In flight is at most the one request the loading flag stands for. *)
Definition oneInFlight (r : Running) : Prop :=
  (isLoading (state r) = false /\ inFlight r = [])
  \/ (isLoading (state r) = true /\ exists request, inFlight r = [request]).

(** The component after a sequence of events, oldest first.  An event runs
    on the state the previous one left: the updates a handler queues are
    applied, and the component rendered again, before the next event is
    handled. *)
Definition after (events : list Event) : Running := fold_left step events initial.

(** *** The other handlers and the render *)

(** [fileToBase64]: the promise takes what follows the first comma of the
    data URL the reader gives, [reader.result.split(',')[1]], which is
    [undefined] ([None]) when there is no comma, and the reader's error. *)
Definition fileToBase64 (readAsDataURL : Settled string) : Settled (option string) :=
  match readAsDataURL with
  | Fulfilled result => Fulfilled (nth_error (split "," result) 1)
  | Rejected reason => Rejected reason
  end.

(** [latestFiles ? buildFileTree(latestFiles) : []] of a render. *)
Definition fileTree {collation : Collation} (s : State) : Completion (list FileTreeNode) :=
  match latestFiles (chatHistory s) with
  | Some fs => buildFileTree fs
  | None => Normal []
  end.

(** The keys [FileTreeView] gives to the items of its nodes: [key={node.name}]. *)
Definition itemKeys (nodes : list FileTreeNode) : list string := map node_name nodes.

Definition handleFileClick (path : string) (s : State) : State :=
  match latestFiles (chatHistory s) with
  | Some fs =>
      match find (fun f => name f =? path) fs with
      | Some f => setViewingFile (Some f) s
      | None => s
      end
  | None => s
  end.

Definition isUser (m : Message) : bool :=
  match type m with
  | user => true
  | _ => false
  end.

(** [chatHistory.find(msg => msg.type === 'user')?.content || 'ai-project']. *)
Definition firstUserMessage (history : list Message) : string :=
  orElse (match find isUser history with
          | Some m => content m
          | None => ""
          end) "ai-project".

Definition projectName (history : list Message) : string :=
  orElse (keepSlugChars
            (replaceWhiteSpace false (toLowerCase (trim (firstUserMessage history)))))
         "ai-generated-project".

(** [handleDownload]: what the call of [createAndDownloadZip] it makes, and
    does not await, does. *)
Definition handleDownload {engine : Engine} {browser : zipUtils.Browser} (s : State)
  : list (zipUtils.Effect zipUtils.Blob) :=
  match latestFiles (chatHistory s) with
  | None => []
  | Some fs =>
      snd (zipUtils.createAndDownloadZip (map zipUtils.value_of fs)
             (projectName (chatHistory s) ++ ".zip"))
  end.

Definition isFolder (node : FileTreeNode) : bool :=
  match node with
  | folder _ _ _ => true
  | file _ _ => false
  end.

(** A session without images: a project is generated and the user types the
    next request. *)
Definition plainSession : list Event :=
  [ changePrompt "make a bot"; submit; settle 0 (Fulfilled generated);
    changePrompt "add a test" ].

(** No comma among the code units. *)
Definition noComma (s : string) : bool := everyChar (fun c => negb (Ascii.eqb c ",")) s.


(** The tree of [exampleProject] under [byCodeUnit]. *)
Definition exampleTree : list FileTreeNode :=
  [ folder "src" []
      [ ("index.js", file "index.js" "src/index.js");
        ("lib", folder "lib" [] [ ("db.js", file "db.js" "src/lib/db.js") ]) ];
    file "index.html" "index.html";
    file "package.json" "package.json" ].

(** The tree of [generated] under [byCodeUnit]. *)
Definition generatedTree : list FileTreeNode :=
  [ folder "src" [] [ ("index.js", file "index.js" "src/index.js") ];
    file "package.json" "package.json" ].

(** A root object with two files around a folder. *)
Definition exampleRoot : list (string * FileTreeNode) :=
  [ ("b.js", file "b.js" "b.js"); ("src", folder "src" [] []); ("a.js", file "a.js" "a.js") ].

(** *** What the component keeps true *)

(** Turns come in pairs, a user turn at every even place and its reply at
    the odd place after it, the last reply missing while a request is
    awaited. *)
Definition turnsAlternate (r : Running) : Prop :=
  (forall i m, nth_error (chatHistory (state r)) i = Some m ->
               (isUser m = Nat.even i))
  /\ isLoading (state r) = Nat.odd (List.length (chatHistory (state r))).

(** The first-request flag is up as long as no assistant turn is there, and
    a request in flight was started under the flag as it is. *)
Definition flagTracksResponses (r : Running) : Prop :=
  isFirstRequest (state r) = negb (existsb isAssistant (chatHistory (state r)))
  /\ forall request, In request (inFlight r) ->
                     wasFirstRequest request = isFirstRequest (state r).

(** The error banner shows the message of the last turn when that is a
    system turn, and nothing otherwise. *)
Definition bannerMatchesLastTurn (s : State) : Prop :=
  match rev (chatHistory s) with
  | m :: _ =>
      match type m with
      | system => content m = ("Error: " ++ error s)%string
      | _ => error s = ""
      end
  | [] => error s = ""
  end.

Definition consistent (r : Running) : Prop :=
  oneInFlight r /\ turnsAlternate r /\ flagTracksResponses r
  /\ bannerMatchesLastTurn (state r).

(** A browser to run examples with: the archive is its list of entries, and
    no call throws. *)
Definition exampleBrowser : zipUtils.Browser :=
  {| zipUtils.Blob := list (JSValue * JSValue);
     zipUtils.file_of_other := fun _ _ => None;
     zipUtils.generateAsync := fun entries => Fulfilled entries;
     zipUtils.dom := fun _ => None |}.

End App.

(** * Properties *)

(** ** Validation of the API answer *)

Section GeminiServiceFacts.
Import geminiService.
Context {engine : Engine} {json : Json} {remote : Remote}.

(** The [try] block has no effect of its own. *)
Lemma parse_files_pure (jsonString : string) : snd (parse_files jsonString) = [].
Proof.
  unfold parse_files, parse, files_of.
  destruct (JSON_parse jsonString) as [parsed|]; [|reflexivity].
  cbn [bind ret throw].
  destruct (get_files parsed) as [files|]; [|reflexivity].
  cbn [bind ret throw].
  now destruct (negb (truthy files) || negb (isArray files)).
Qed.

(** It returns exactly the arrays found under [files]. *)
Lemma parse_files_returns (jsonString : string) (files : JSValue) :
  fst (parse_files jsonString) = inl files <->
  exists parsed items, JSON_parse jsonString = Some parsed
                       /\ get_files parsed = Some (Array items)
                       /\ files = Array items.
Proof.
  unfold parse_files, parse, files_of. split.
  - destruct (JSON_parse jsonString) as [parsed|]; [|discriminate].
    cbn [bind ret throw].
    destruct (get_files parsed) as [v|] eqn:G; [|cbn; discriminate].
    cbn [bind ret throw].
    destruct v as [| |b|x|str|its|ms]; cbn [isArray negb];
      rewrite ?orb_true_r; try discriminate.
    cbn. intros H. injection H as <-. now exists parsed, its.
  - intros (parsed & its & P & G & ->).
    rewrite P. cbn [bind ret throw]. rewrite G. reflexivity.
Qed.

Lemma parse_files_throws (jsonString : string) :
  (exists caught, fst (parse_files jsonString) = inr caught) <->
  JSON_parse jsonString = None
  \/ exists parsed, JSON_parse jsonString = Some parsed
                    /\ forall items, get_files parsed <> Some (Array items).
Proof.
  split.
  - intros [caught H].
    destruct (JSON_parse jsonString) as [parsed|] eqn:P; [right|now left].
    exists parsed. split; [reflexivity|]. intros its G.
    assert (fst (parse_files jsonString) = inl (Array its)) as R
      by (apply parse_files_returns; now exists parsed, its).
    congruence.
  - intros [P | (parsed & P & G)].
    + exists SyntaxError. unfold parse_files, parse. now rewrite P.
    + destruct (fst (parse_files jsonString)) as [v|caught] eqn:R; [|now exists caught].
      apply parse_files_returns in R as (parsed' & its & P' & G' & _).
      rewrite P in P'. injection P' as <-. now apply G in G'.
Qed.

(** The call, and what [generateScriptBundle] makes of how it settles. *)
Lemma generateScriptBundle_unfold (prompt : string) (existingFiles : list GeneratedFile)
  (imageBase64 : option string) :
  exists request,
    responseSchema (config request) = schema
    /\ generateScriptBundle prompt existingFiles imageBase64
       = match generateContent request with
         | Rejected reason => (Rejected reason, [ai_models_generateContent request])
         | Fulfilled response =>
             match text response with
             | None =>
                 (Rejected (Error (cannot_read_property Undefined "trim")),
                  [ai_models_generateContent request])
             | Some responseText =>
                 if trim responseText =? ""
                 then (Rejected (Error empty_response_message),
                       [ai_models_generateContent request])
                 else match fst (parse_files (trim responseText)) with
                      | inl files => (Fulfilled files, [ai_models_generateContent request])
                      | inr _ =>
                          (Rejected (Error invalid_format_message),
                           [ ai_models_generateContent request;
                             console_error "Failed to parse JSON response:"
                                           (trim responseText) ])
                      end
             end
         end.
Proof.
  unfold generateScriptBundle. cbv zeta.
  match goal with |- context [generateContent ?r] => exists r end.
  split; [reflexivity|].
  match goal with |- context [generateContent ?r] =>
    destruct (generateContent r) as [response|reason] end; [|reflexivity].
  cbn [await bind perform ret]. unfold text_trim.
  destruct (text response) as [responseText|]; [|reflexivity].
  cbn [bind perform ret async app].
  destruct (trim responseText =? ""); [reflexivity|].
  pose proof (parse_files_pure (trim responseText)) as Pure.
  destruct (parse_files (trim responseText)) as [[files|caught] effects];
    cbn in Pure; subst effects; reflexivity.
Qed.

(** On an answer that carries a text, [generateScriptBundle] rejects with
    one of its two messages exactly when the answer is empty or malformed:
    the trimmed text is empty (first message), or it is not JSON or has no
    array under [files] (second message); on every other text it fulfils
    with the array found under [files]. *)
Lemma generateScriptBundle_with_text_rejects_iff_empty_or_malformed
  (prompt : string) (existingFiles : list GeneratedFile) (imageBase64 : option string) :
  exists request,
    calls (snd (generateScriptBundle prompt existingFiles imageBase64)) = [request]
    /\ match generateContent request with
       | Rejected reason =>
           fst (generateScriptBundle prompt existingFiles imageBase64) = Rejected reason
       | Fulfilled response =>
           let outcome := fst (generateScriptBundle prompt existingFiles imageBase64) in
           match text response with
           | None => outcome = Rejected (Error (cannot_read_property Undefined "trim"))
           | Some responseText =>
               ((exists message, outcome = Rejected (Error message))
                <-> emptyOrMalformed responseText)
               /\ (trim responseText = ""
                   -> outcome = Rejected (Error empty_response_message))
               /\ (trim responseText <> "" -> emptyOrMalformed responseText
                   -> outcome = Rejected (Error invalid_format_message))
               /\ (emptyOrMalformed responseText
                   \/ exists parsed items,
                        JSON_parse (trim responseText) = Some parsed
                        /\ get_files parsed = Some (Array items)
                        /\ outcome = Fulfilled (Array items))
           end
       end.
Proof.
  destruct (generateScriptBundle_unfold prompt existingFiles imageBase64)
    as (request & _ & ->).
  exists request.
  destruct (generateContent request) as [response|reason]; [|now split].
  cbv zeta.
  destruct (text response) as [responseText|]; [|now split].
  unfold emptyOrMalformed.
  destruct (String.eqb_spec (trim responseText) "") as [E|E].
  - cbn. repeat split; eauto; try tauto.
  - pose proof (parse_files_returns (trim responseText)) as Ret.
    pose proof (parse_files_throws (trim responseText)) as Thr.
    destruct (fst (parse_files (trim responseText))) as [files|caught]; cbn.
    + destruct (proj1 (Ret files) eq_refl) as (parsed & its & P & G & ->).
      assert (~ (JSON_parse (trim responseText) = None
                 \/ exists parsed0, JSON_parse (trim responseText) = Some parsed0
                      /\ forall items, get_files parsed0 <> Some (Array items))) as No.
      { intros H. apply Thr in H as [c H]. discriminate. }
      repeat split.
      * intros [m H]. discriminate.
      * intros [H|H]; [contradiction|]. now apply No in H.
      * intros H. contradiction.
      * intros _ [H|H]; [contradiction|]. now apply No in H.
      * right. now exists parsed, its.
    + assert (JSON_parse (trim responseText) = None
              \/ exists parsed0, JSON_parse (trim responseText) = Some parsed0
                   /\ forall items, get_files parsed0 <> Some (Array items)) as Yes.
      { apply Thr. now exists caught. }
      repeat split; eauto; try tauto.
Qed.


(** C6.  Every invocation makes exactly one call to the API, and the
    configuration of that call carries the fixed schema: an object that
    requires [files], an array of objects that require the strings [name] and
    [content]. *)
Theorem generateScriptBundle_one_call_with_schema
  (prompt : string) (existingFiles : list GeneratedFile) (imageBase64 : option string) :
  (exists request,
      calls (snd (generateScriptBundle prompt existingFiles imageBase64)) = [request]
      /\ responseSchema (config request) = schema)
  /\ type schema = OBJECT
  /\ required schema = ["files"]
  /\ exists filesSchema itemSchema,
       properties schema = [("files", filesSchema)]
       /\ type filesSchema = ARRAY
       /\ items filesSchema = Some itemSchema
       /\ type itemSchema = OBJECT
       /\ required itemSchema = ["name"; "content"]
       /\ map (fun p => (fst p, type (snd p))) (properties itemSchema)
          = [("name", STRING); ("content", STRING)].
Proof.
  split.
  - destruct (generateScriptBundle_unfold prompt existingFiles imageBase64)
      as (request & S & ->).
    exists request. split; [|exact S].
    destruct (generateContent request) as [response|reason]; [|reflexivity].
    destruct (text response) as [responseText|]; [|reflexivity].
    destruct (trim responseText =? ""); [reflexivity|].
    now destruct (fst (parse_files (trim responseText))).
  - split; [reflexivity|]. split; [reflexivity|].
    do 2 eexists. repeat split; reflexivity.
Qed.


End GeminiServiceFacts.



(** ** The archive *)

Section ZipUtilsFacts.
Import zipUtils.
Context {engine : Engine} {browser : Browser}.

(** On files of the declared type the loop adds the files in order and does
    not throw. *)
Lemma forEach_file_spec (files : list GeneratedFile) (zip : list (JSValue * JSValue)) :
  forEach_file (map value_of files) zip
  = (inl (zip ++ map entry files),
     map (fun f => zip_file (Str (name f)) (Str (content f))) files).
Proof.
  revert zip. induction files as [|f files IH]; intros zip; cbn [forEach_file map].
  - unfold ret. now rewrite app_nil_r.
  - unfold property, file, value_of. cbn [get ownProperty String.eqb Ascii.eqb Bool.eqb].
    cbn [bind perform ret app file_outcome]. rewrite IH, <- app_assoc. reflexivity.
Qed.

(** On any array the loop goes as far as the first element it does not
    take, and throws there. *)
Lemma forEach_file_any (files : list JSValue) (zip : list (JSValue * JSValue)) :
  if forallb accepted files
  then forEach_file files zip
       = (inl (zip ++ entries_of files),
          map (fun arguments => zip_file (fst arguments) (snd arguments)) (entries_of files))
  else exists reason effects, forEach_file files zip = (inr reason, effects).
Proof.
  revert zip. induction files as [|f files IH]; intros zip; cbn [forEach_file forallb].
  - unfold ret. cbn. now rewrite app_nil_r.
  - unfold accepted at 1, entries_of, arguments_of, property. cbn [flat_map].
    fold (entries_of files).
    destruct (get "name" f) as [n|]; [|cbn; eauto].
    destruct (get "content" f) as [c|]; [|cbn; eauto].
    unfold file. cbn [bind perform ret throw app].
    destruct (file_outcome n c) as [reason|]; [cbn; eauto|].
    cbn [andb bind ret app map fst snd]. specialize (IH (zip ++ [(n, c)])).
    destruct (forallb accepted files).
    + rewrite IH, <- app_assoc. reflexivity.
    + destruct IH as (reason & effects & ->). cbn. eauto.
Qed.

Lemma accepted_value_of (files : list GeneratedFile) :
  forallb accepted (map value_of files) = true.
Proof. induction files as [|f files IH]; [reflexivity|]. cbn [map forallb]. now rewrite IH. Qed.

Lemma added_entries_app {B : Type} (l1 l2 : list (Effect B)) :
  added_entries (l1 ++ l2) = added_entries l1 ++ added_entries l2.
Proof. unfold added_entries. apply flat_map_app. Qed.

Lemma added_entries_files {B : Type} (files : list GeneratedFile) :
  added_entries (map (fun f => @zip_file B (Str (name f)) (Str (content f))) files)
  = map entry files.
Proof. induction files as [|f files IH]; cbn; [|rewrite <- IH]; reflexivity. Qed.

(** A statement adds nothing to the zip, and neither does what follows it if
    that does not. *)
Lemma statement_then_adds_nothing {A : Type} (call : DomCall Blob)
  (next : Comp (Effect Blob) Thrown A) :
  added_entries (snd next) = [] ->
  added_entries (snd (bind (statement call) (fun _ => next))) = [].
Proof.
  intros N. unfold statement. cbn [bind perform].
  destruct (dom call) as [reason|]; cbn; [reflexivity|].
  destruct next as [result effects]. exact N.
Qed.

(** The [try] block starts by generating the archive from the zip and adds
    nothing to it. *)
Lemma try_download_spec (zip : list (JSValue * JSValue)) (zipName : string) :
  exists rest, snd (try_download zip zipName) = zip_generateAsync zip :: rest
               /\ added_entries rest = [].
Proof.
  unfold try_download, generateAsync_blob. cbn [bind perform].
  destruct (generateAsync zip) as [blob|reason]; cbn [await ret throw bind app].
  - match goal with |- context [bind (statement ?c) ?k] =>
      pose proof (statement_then_adds_nothing c (k tt)) as N;
      destruct (bind (statement c) k) as [result effects] end.
    exists effects. split; [reflexivity|]. apply N.
    repeat (apply statement_then_adds_nothing).
    unfold statement. cbn [bind perform]. now destruct (dom revokeObjectURL).
  - exists []. now split.
Qed.

(** When the loop takes every element the promise is fulfilled, and the
    effects are those of the loop, then of the [try] block, then of the
    [catch] clause if the block threw; otherwise the promise is rejected
    with what the loop threw. *)
Lemma createAndDownloadZip_any (files : list JSValue) (zipName : string) :
  if forallb accepted files
  then createAndDownloadZip files zipName
       = (Fulfilled tt,
          map (fun arguments => zip_file (fst arguments) (snd arguments)) (entries_of files)
          ++ snd (try_download (entries_of files) zipName)
          ++ match fst (try_download (entries_of files) zipName) with
             | inl _ => []
             | inr error => [console_error "Error creating ZIP file:" error]
             end)
  else exists reason, fst (createAndDownloadZip files zipName) = Rejected reason.
Proof.
  unfold createAndDownloadZip. cbv zeta.
  pose proof (forEach_file_any files []) as Loop.
  destruct (forallb accepted files).
  - rewrite Loop. cbn [bind app].
    destruct (try_download (entries_of files) zipName) as [[[]|error] tried];
      cbn; now rewrite ?app_nil_r.
  - destruct Loop as (reason & effects & ->). exists reason. reflexivity.
Qed.

(** On files of the declared type the promise is fulfilled. *)
Lemma createAndDownloadZip_unfold (files : list GeneratedFile) (zipName : string) :
  createAndDownloadZip (map value_of files) zipName
  = (Fulfilled tt,
     map (fun f => zip_file (Str (name f)) (Str (content f))) files
     ++ snd (try_download (map entry files) zipName)
     ++ match fst (try_download (map entry files) zipName) with
        | inl _ => []
        | inr error => [console_error "Error creating ZIP file:" error]
        end).
Proof.
  unfold createAndDownloadZip. cbv zeta. rewrite forEach_file_spec.
  cbn [bind app].
  destruct (try_download (map entry files) zipName) as [[[]|error] tried];
    cbn; now rewrite ?app_nil_r.
Qed.

(** C4.  The entries added to the archive are exactly the input files: one
    [file] call for each of them, under its name and with its content, in
    the order of the input, before the archive is generated from exactly
    these entries; nothing is added besides. *)
Theorem createAndDownloadZip_adds_exactly_the_files
  (files : list GeneratedFile) (zipName : string) :
  added_entries (snd (createAndDownloadZip (map value_of files) zipName)) = map entry files
  /\ exists rest,
       snd (createAndDownloadZip (map value_of files) zipName)
       = map (fun f => zip_file (Str (name f)) (Str (content f))) files
         ++ zip_generateAsync (map entry files) :: rest
       /\ added_entries rest = [].
Proof.
  rewrite createAndDownloadZip_unfold. cbn [snd].
  destruct (try_download_spec (map entry files) zipName) as (rest & -> & N).
  set (logged := match fst (try_download (map entry files) zipName) with
                 | inl _ => []
                 | inr error => [console_error "Error creating ZIP file:" error]
                 end).
  assert (added_entries logged = []) as L
    by (subst logged; now destruct (fst (try_download (map entry files) zipName))).
  split.
  - rewrite !added_entries_app, added_entries_files.
    change (added_entries (zip_generateAsync (map entry files) :: rest))
      with (added_entries rest).
    now rewrite N, L, !app_nil_r.
  - exists (rest ++ logged). split; [reflexivity|].
    now rewrite added_entries_app, N, L.
Qed.


End ZipUtilsFacts.


(** ** Submitting and the chat history *)

Section AppFacts.
Import App.

Lemma handleSubmit_blocked (s : State) :
  isLoading s = true -> handleSubmit s = (s, None).
Proof.
  intros L. unfold handleSubmit. rewrite L, orb_true_r. reflexivity.
Qed.

(** What a submission that goes through does. *)
Lemma handleSubmit_started (s s' : State) (request : Request) :
  handleSubmit s = (s', Some request) ->
  isLoading s = false
  /\ trim (prompt s) <> ""
  /\ isLoading s' = true
  /\ chatHistory s'
     = chatHistory s
       ++ [ {| type := user; content := prompt s;
               files := option_map imagePlaceholder (image s) |} ]
  /\ currentFiles request = match latestFiles (chatHistory s) with
                            | Some fs => fs
                            | None => []
                            end
  /\ currentPrompt request = constructFullPrompt s
  /\ imageBase64 request = option_map base64 (image s)
  /\ wasFirstRequest request = isFirstRequest s.
Proof.
  unfold handleSubmit.
  destruct (String.eqb_spec (trim (prompt s)) "") as [E|E]; cbn [orb].
  - intros H. discriminate.
  - destruct (isLoading s) eqn:L.
    + intros H. discriminate.
    + intros H. injection H as <- <-. cbn.
      repeat split; assumption.
Qed.

Lemma handleSubmit_settled_history (request : Request)
  (outcome : Settled (list GeneratedFile)) (s : State) :
  chatHistory (handleSubmit_settled request outcome s)
  = chatHistory s
    ++ [ match outcome with
         | Fulfilled result =>
             {| type := ai; content := "Project files are ready or have been updated.";
                files := Some result |}
         | Rejected err =>
             {| type := system;
                content := "Error: " ++ match err with
                                        | Error message => message
                                        | NotAnError => "An unknown error occurred."
                                        end;
                files := None |}
         end ].
Proof.
  unfold handleSubmit_settled.
  destruct outcome as [result|err]; [destruct (wasFirstRequest request)|]; reflexivity.
Qed.

Lemma handleSubmit_settled_clears (request : Request)
  (outcome : Settled (list GeneratedFile)) (s : State) :
  isLoading (handleSubmit_settled request outcome s) = false.
Proof. reflexivity. Qed.

Lemma step_oneInFlight (r : Running) (e : Event) :
  oneInFlight r -> oneInFlight (step r e).
Proof.
  intros I. destruct e as [|index outcome|v|v|v|v|v|v|v]; cbn [step];
    try (destruct I as [[L F]|[L F]]; [left|right]; cbn; now split).
  - destruct (handleSubmit (state r)) as [s' started] eqn:H.
    destruct started as [request|].
    + apply handleSubmit_started in H as (L & _ & L' & _).
      destruct I as [[_ F]|[L1 _]]; [|congruence].
      right. cbn. split; [assumption|]. exists request. now rewrite F.
    + assert (s' = state r) as ->.
      { unfold handleSubmit in H.
        destruct ((trim (prompt (state r)) =? "") || isLoading (state r));
          now injection H as <-. }
      destruct I as [[L F]|[L F]]; [left|right]; cbn; now split.
  - destruct (nth_error (inFlight r) index) as [request|] eqn:N; [|exact I].
    left. cbn. split; [reflexivity|].
    destruct I as [[_ F]|[_ [request' F]]]; rewrite F in *.
    + now destruct index.
    + destruct index as [|index]; [reflexivity|].
      cbn in N. now destruct index.
Qed.

Lemma after_oneInFlight (events : list Event) : oneInFlight (after events).
Proof.
  unfold after.
  assert (forall r, oneInFlight r -> oneInFlight (fold_left step events r)) as G.
  { induction events as [|e events IH]; intros r I; cbn; [exact I|].
    apply IH, step_oneInFlight, I. }
  apply G. left. now split.
Qed.

(** C7.  While a request is in flight the flag is set and [handleSubmit]
    changes nothing and starts nothing, so that no more than one request is
    ever in flight; and the flag is cleared when the request settles,
    fulfilled or rejected. *)
Theorem loading_flag_prevents_duplicate_submissions :
  (forall s, isLoading s = true -> handleSubmit s = (s, None))
  /\ (forall events,
        List.length (inFlight (after events)) <= 1
        /\ (inFlight (after events) <> [] <-> isLoading (state (after events)) = true)
        /\ (inFlight (after events) <> [] -> step (after events) submit = after events))
  /\ (forall events index outcome request,
        nth_error (inFlight (after events)) index = Some request ->
        isLoading (state (step (after events) (settle index outcome))) = false
        /\ inFlight (step (after events) (settle index outcome)) = []).
Proof.
  split; [exact handleSubmit_blocked|]. split.
  - intros events. pose proof (after_oneInFlight events) as I.
    destruct (after events) as [s flying].
    destruct I as [[L F]|[L [request F]]]; cbn in *; subst flying; cbn [List.length].
    + split; [lia|]. split; [split; [congruence|congruence]|congruence].
    + split; [lia|]. split; [split; [trivial|discriminate]|].
      intros _. rewrite (handleSubmit_blocked s L). reflexivity.
  - intros events index outcome request N.
    pose proof (step_oneInFlight (after events) (settle index outcome)
                  (after_oneInFlight events)) as I.
    cbn [step] in *. rewrite N in *. cbn [state inFlight] in *.
    destruct I as [[L F]|[L _]]; [now split|discriminate L].
Qed.

Lemma find_agree {A : Type} (f g : A -> bool) (l : list A) :
  (forall x, In x l -> f x = g x) -> find f l = find g l.
Proof.
  induction l as [|x l IH]; intros E; cbn; [reflexivity|].
  rewrite (E x (or_introl eq_refl)). destruct (g x); [reflexivity|].
  apply IH. intros y Hy. apply E. now right.
Qed.

(** When the turns that carry files are the assistant's, the files
    re-submitted are those of the latest assistant turn. *)
Lemma latestFiles_of_responses (history : list Message) :
  (forall m, In m history -> hasFiles m = isAssistant m) ->
  match latestFiles history with
  | Some fs => fs
  | None => []
  end = latestResponseFiles history.
Proof.
  intros E. unfold latestFiles, latestResponseFiles.
  rewrite (find_agree hasFiles isAssistant (rev history))
    by (intros m Hm; apply E; now apply in_rev).
  now destruct (find isAssistant (rev history)).
Qed.

Lemma step_turnShape (r : Running) (e : Event) :
  Forall turnShape (chatHistory (state r)) ->
  Forall turnShape (chatHistory (state (step r e))).
Proof.
  intros F. destruct e as [|index outcome|v|v|v|v|v|v|v]; cbn [step]; try exact F.
  - destruct (handleSubmit (state r)) as [s' started] eqn:H. cbn [state].
    destruct started as [request|].
    + apply handleSubmit_started in H as (_ & _ & _ & -> & _).
      apply Forall_app. split; [exact F|]. now repeat constructor.
    + unfold handleSubmit in H.
      destruct ((trim (prompt (state r)) =? "") || isLoading (state r));
        [|discriminate]. now injection H as <-.
  - destruct (nth_error (inFlight r) index) as [request|]; [|exact F].
    cbn [state]. rewrite handleSubmit_settled_history.
    apply Forall_app. split; [exact F|].
    constructor; [|constructor].
    destruct outcome; cbn; [discriminate|reflexivity].
Qed.

Lemma after_turnShape (events : list Event) :
  Forall turnShape (chatHistory (state (after events))).
Proof.
  unfold after.
  assert (forall r, Forall turnShape (chatHistory (state r)) ->
                    Forall turnShape (chatHistory (state (fold_left step events r)))) as G.
  { induction events as [|e events IH]; intros r F; cbn; [exact F|].
    apply IH, step_turnShape, F. }
  apply G. constructor.
Qed.

(** X8.  As long as no user turn of the history carries a snapshot, that is
    as long as no request was sent with an image, a submission re-submits the
    files of the latest assistant turn, and nothing before the first. *)
Lemma resubmits_latest_response_without_images
  (events : list Event) (s' : State) (request : Request) :
  (forall m, In m (chatHistory (state (after events))) -> type m = user -> files m = None) ->
  handleSubmit (state (after events)) = (s', Some request) ->
  currentFiles request = latestResponseFiles (chatHistory (state (after events))).
Proof.
  intros NoImage H. apply handleSubmit_started in H as (_ & _ & _ & _ & -> & _).
  apply latestFiles_of_responses. intros m I.
  pose proof (after_turnShape events) as F. rewrite Forall_forall in F.
  specialize (F m I). specialize (NoImage m I).
  unfold turnShape in F. unfold hasFiles, isAssistant.
  destruct (type m).
  - now rewrite NoImage.
  - now destruct (files m).
  - now rewrite F.
Qed.

(** C1.  The session [retryAfterFailedScreenshot] ends in a submission whose
    [existingFiles] argument is the placeholder of the screenshot, while the
    latest assistant turn of the history holds the two generated files. *)
Theorem resubmits_image_placeholder_after_failed_request :
  map currentFiles (inFlight (after retryAfterFailedScreenshot))
  = [ [ mkFile "error.png" "User uploaded an image." ] ]
  /\ latestResponseFiles (chatHistory (state (after retryAfterFailedScreenshot)))
     = [ mkFile "package.json" "{}"; mkFile "src/index.js" "console.log(1)" ]
  /\ map type (chatHistory (state (after retryAfterFailedScreenshot)))
     = [ user; ai; user; system; user ].
Proof. vm_compute. repeat split. Qed.

Lemma skipn_length_app {A : Type} (l l' : list A) : skipn (List.length l) (l ++ l') = l'.
Proof. induction l as [|x l IH]; cbn; [reflexivity|exact IH]. Qed.

(** C5, as stated, fails: a user turn that attaches a screenshot carries a
    snapshot, and it is not the file set produced at that turn. *)
Lemma user_turn_snapshot_is_not_the_produced_files :
  let before := state (after [ changePrompt "fix this error"; changeImage (Some screenshot) ]) in
  exists request m fs,
    snd (handleSubmit before) = Some request
    /\ In m (appended before
               (handleSubmit_settled request (Fulfilled generated) (fst (handleSubmit before))))
    /\ type m = user
    /\ files m = Some fs
    /\ fs = [ mkFile "error.png" "User uploaded an image." ]
    /\ fs <> generated.
Proof.
  cbv zeta. eexists. eexists. eexists.
  split; [reflexivity|]. split; [left; reflexivity|].
  split; [reflexivity|]. split; [reflexivity|]. split; [reflexivity|].
  discriminate.
Qed.

(** C5, amended.  A submission appends two turns.  The assistant turn of a
    fulfilled request carries the complete list the call returned; the user
    turn carries a snapshot only for an attached image, and then the
    placeholder entry of that image; the system turn of a rejected request
    carries none. *)
Theorem snapshots_of_appended_turns
  (s s' : State) (request : Request) (outcome : Settled (list GeneratedFile)) :
  handleSubmit s = (s', Some request) ->
  appended s (handleSubmit_settled request outcome s')
  = [ {| type := user; content := prompt s;
         files := option_map imagePlaceholder (image s) |};
      match outcome with
      | Fulfilled result =>
          {| type := ai; content := "Project files are ready or have been updated.";
             files := Some result |}
      | Rejected err =>
          {| type := system;
             content := "Error: " ++ match err with
                                     | Error message => message
                                     | NotAnError => "An unknown error occurred."
                                     end;
             files := None |}
      end ].
Proof.
  intros H. apply handleSubmit_started in H as (_ & _ & _ & U & _).
  unfold appended. rewrite handleSubmit_settled_history, U, <- app_assoc.
  apply skipn_length_app.
Qed.

End AppFacts.

Lemma snapshots_of_appended_turns_example :
  App.appended
    (App.setPrompt "make a bot" App.initialState)
    (App.handleSubmit_settled
       {| App.currentPrompt := App.constructFullPrompt (App.setPrompt "make a bot" App.initialState);
          App.currentFiles := []; App.imageBase64 := None; App.wasFirstRequest := true |}
       (Fulfilled App.generated)
       (fst (App.handleSubmit (App.setPrompt "make a bot" App.initialState))))
  = [ {| App.type := App.user; App.content := "make a bot"; App.files := None |};
      {| App.type := App.ai; App.content := "Project files are ready or have been updated.";
         App.files := Some App.generated |} ].
Proof.
  apply (snapshots_of_appended_turns
           (App.setPrompt "make a bot" App.initialState)
           (fst (App.handleSubmit (App.setPrompt "make a bot" App.initialState)))
           {| App.currentPrompt := App.constructFullPrompt (App.setPrompt "make a bot" App.initialState);
              App.currentFiles := []; App.imageBase64 := None; App.wasFirstRequest := true |}
           (Fulfilled App.generated)).
  reflexivity.
Defined.

(** ** The file tree *)

(** *** Splitting a path *)

Lemma split_nonempty (sep : ascii) (s : string) : split sep s <> [].
Proof.
  destruct s as [|c s]; cbn; [discriminate|].
  destruct (Ascii.eqb c sep); [discriminate|].
  destruct (split sep s); discriminate.
Qed.

Lemma join_cons_char (sep c : ascii) (part : string) (rest : list string) :
  App.join sep (String c part :: rest) = String c (App.join sep (part :: rest)).
Proof. destruct rest; reflexivity. Qed.

(** A name is its parts with the separator between them. *)
Lemma join_split (sep : ascii) (s : string) : App.join sep (split sep s) = s.
Proof.
  induction s as [|c s IH]; [reflexivity|]. cbn [split].
  destruct (Ascii.eqb_spec c sep) as [->|N].
  - pose proof (split_nonempty sep s) as NE.
    destruct (split sep s) as [|part rest]; [contradiction|].
    cbn [App.join] in *. cbn. now rewrite IH.
  - pose proof (split_nonempty sep s) as NE.
    destruct (split sep s) as [|part rest]; [contradiction|].
    now rewrite join_cons_char, IH.
Qed.

Lemma pathParts_inj (f g : GeneratedFile) :
  App.pathParts f = App.pathParts g -> name f = name g.
Proof.
  unfold App.pathParts. intros E.
  rewrite <- (join_split "/" (name f)), <- (join_split "/" (name g)). now rewrite E.
Qed.

(** *** Properties of a level *)

Section Levels.
Import App.

Lemma getProperty_setProperty (key key' : string) (node : FileTreeNode)
  (level : list (string * FileTreeNode)) :
  getProperty key' (setProperty key node level)
  = if key =? key' then Some node else getProperty key' level.
Proof.
  induction level as [|[k old] level IH]; cbn.
  - destruct (String.eqb_spec key key'); reflexivity.
  - destruct (String.eqb_spec k key) as [->|N]; cbn.
    + destruct (String.eqb_spec key key'); reflexivity.
    + rewrite IH. destruct (String.eqb_spec k key') as [->|N'].
      * destruct (String.eqb_spec key key'); [congruence|reflexivity].
      * reflexivity.
Qed.

Lemma getProperty_setProperty_same key node level :
  getProperty key (setProperty key node level) = Some node.
Proof. now rewrite getProperty_setProperty, String.eqb_refl. Qed.

Lemma getProperty_setProperty_other key key' node level :
  key <> key' -> getProperty key' (setProperty key node level) = getProperty key' level.
Proof.
  intros N. rewrite getProperty_setProperty.
  now destruct (String.eqb_spec key key').
Qed.

Lemma getProperty_In key node (level : list (string * FileTreeNode)) :
  getProperty key level = Some node -> In (key, node) level.
Proof.
  induction level as [|[k old] level IH]; cbn; [discriminate|].
  destruct (String.eqb_spec k key) as [->|N].
  - intros H. injection H as ->. now left.
  - intros H. right. now apply IH.
Qed.

Lemma In_getProperty key node (level : list (string * FileTreeNode)) :
  NoDup (map fst level) -> In (key, node) level -> getProperty key level = Some node.
Proof.
  induction level as [|[k old] level IH]; cbn; [contradiction|].
  intros ND [E|I].
  - injection E as -> ->. now rewrite String.eqb_refl.
  - inversion_clear ND as [|? ? Fresh ND'].
    destruct (String.eqb_spec k key) as [->|N]; [|now apply IH].
    exfalso. apply Fresh. apply in_map_iff. now exists (key, node).
Qed.

(** Lookup does not depend on the order of the properties. *)
Lemma getProperty_Permutation key (l1 l2 : list (string * FileTreeNode)) :
  NoDup (map fst l1) -> Permutation l1 l2 -> getProperty key l1 = getProperty key l2.
Proof.
  intros ND1 P.
  assert (NoDup (map fst l2)) as ND2
    by (eapply Permutation_NoDup; [apply Permutation_map, P|exact ND1]).
  destruct (getProperty key l1) as [n1|] eqn:G1.
  - symmetry. apply In_getProperty; [exact ND2|].
    eapply Permutation_in; [exact P|]. now apply getProperty_In.
  - destruct (getProperty key l2) as [n2|] eqn:G2; [|reflexivity].
    apply getProperty_In in G2.
    eapply Permutation_in in G2; [|symmetry; exact P].
    apply In_getProperty in G2; [congruence|exact ND1].
Qed.

Lemma setProperty_keys key node (level : list (string * FileTreeNode)) :
  map fst (setProperty key node level)
  = if existsb (String.eqb key) (map fst level) then map fst level
    else map fst level ++ [key].
Proof.
  induction level as [|[k old] level IH]; cbn; [reflexivity|].
  rewrite (String.eqb_sym key k).
  destruct (String.eqb_spec k key) as [->|N]; cbn; [reflexivity|].
  rewrite IH. now destruct (existsb (String.eqb key) (map fst level)).
Qed.

Lemma setProperty_NoDup key node (level : list (string * FileTreeNode)) :
  NoDup (map fst level) -> NoDup (map fst (setProperty key node level)).
Proof.
  intros ND. rewrite setProperty_keys.
  destruct (existsb (String.eqb key) (map fst level)) eqn:E; [exact ND|].
  apply NoDup_app_remove_l with (l := []). cbn.
  assert (~ In key (map fst level)) as Fresh.
  { intros I. apply not_true_iff_false in E. apply E, existsb_exists.
    exists key. split; [exact I|apply String.eqb_refl]. }
  clear E. induction (map fst level) as [|k ks IH]; cbn.
  - constructor; [intros []|constructor].
  - inversion_clear ND as [|? ? Fk ND'].
    constructor.
    + rewrite in_app_iff. intros [I|[->|[]]]; [now apply Fk|]. apply Fresh. now left.
    + apply IH; [exact ND'|]. intros I. apply Fresh. now right.
Qed.

Lemma setProperty_In key node key' node' (level : list (string * FileTreeNode)) :
  In (key', node') (setProperty key node level) ->
  (key', node') = (key, node) \/ In (key', node') level.
Proof.
  induction level as [|[k old] level IH]; cbn.
  - intros [E|[]]. now left.
  - destruct (String.eqb_spec k key) as [->|N]; cbn.
    + intros [E|I]; [now left|now right; right].
    + intros [E|I]; [now right; left|].
      destruct (IH I) as [E|I']; [now left|now right; right].
Qed.

End Levels.

Section Placing.
Import App.

Lemma setProperty_setProperty key node node' (level : list (string * FileTreeNode)) :
  setProperty key node' (setProperty key node level) = setProperty key node' level.
Proof.
  induction level as [|[k old] level IH]; cbn.
  - now rewrite String.eqb_refl.
  - destruct (String.eqb_spec k key) as [->|N]; cbn.
    + now rewrite String.eqb_refl.
    + destruct (String.eqb_spec k key); [contradiction|]. now rewrite IH.
Qed.

(** What a walk that completes has done at its first part. *)
Lemma place_last path part level level' :
  place path [part] level = Normal level' ->
  plainKey part = true /\ level' = setProperty part (file part path) level.
Proof.
  cbn [place]. destruct (plainKey part); cbn [negb]; [|discriminate].
  intros H. now injection H as <-.
Qed.

Lemma place_directory path part next rest level level' :
  place path (part :: next :: rest) level = Normal level' ->
  plainKey part = true
  /\ exists folderName elements deeper deeper',
       (getProperty part level = Some (folder folderName elements deeper)
        \/ (getProperty part level = None
            /\ folderName = part /\ elements = [] /\ deeper = []))
       /\ place path (next :: rest) deeper = Normal deeper'
       /\ level' = setProperty part (folder folderName elements deeper') level.
Proof.
  remember (next :: rest) as tail eqn:T. cbn [place].
  destruct (plainKey part); cbn [negb]; [|discriminate].
  destruct tail as [|x xs]; [discriminate|]. injection T as -> ->.
  intros H. split; [reflexivity|].
  destruct (getProperty part level) as [[n p|folderName elements deeper]|] eqn:G.
  - rewrite G in H. discriminate.
  - rewrite G in H.
    destruct (place path (next :: rest) deeper) as [deeper'| |] eqn:P; try discriminate.
    injection H as <-. exists folderName, elements, deeper, deeper'.
    split; [now left|]. now split.
  - rewrite getProperty_setProperty_same in H.
    destruct (place path (next :: rest) []) as [deeper'| |] eqn:P; try discriminate.
    injection H as <-. exists part, [], [], deeper'.
    split; [right; now repeat split|]. split; [exact P|].
    apply setProperty_setProperty.
Qed.

Lemma resolveIn_single part (level : list (string * FileTreeNode)) :
  resolveIn [part] level = getProperty part level.
Proof. cbn [resolveIn]. now destruct (getProperty part level) as [[|]|]. Qed.

Lemma resolveIn_nil_level (parts : list string) : resolveIn parts [] = None.
Proof. destruct parts; reflexivity. Qed.

(** The files of a level after a walk: the file placed, at its path, and the
    files that were there at paths not comparable with it. *)
Lemma place_files path (q : list string) :
  q <> [] ->
  forall level level',
    place path q level = Normal level' ->
    forall r n p,
      resolveIn r level' = Some (file n p)
      <-> (r = q /\ n = last q "" /\ p = path)
          \/ (comparable r q = false /\ resolveIn r level = Some (file n p)).
Proof.
  induction q as [|part q IH]; [congruence|]. intros _ level level' P r n p.
  destruct q as [|next rest].
  - apply place_last in P as [_ ->].
    destruct r as [|a r]; [cbn; split; [discriminate|intros [[? _]|[? _]]; discriminate]|].
    destruct (String.eqb_spec part a) as [<-|N].
    + destruct r as [|b r].
      * rewrite resolveIn_single, getProperty_setProperty_same. cbn.
        rewrite String.eqb_refl. cbn. split.
        -- intros H. injection H as <- <-. now left.
        -- intros [(_ & -> & ->)|[? _]]; [reflexivity|discriminate].
      * cbn [resolveIn]. rewrite getProperty_setProperty_same. cbn.
        rewrite String.eqb_refl. cbn. split; [discriminate|].
        intros [[? _]|[? _]]; discriminate.
    + assert (resolveIn (a :: r) (setProperty part (file part path) level)
              = resolveIn (a :: r) level) as ->
        by (cbn [resolveIn]; now rewrite getProperty_setProperty_other).
      cbn [comparable]. destruct (String.eqb_spec a part) as [E|_]; [congruence|].
      cbn. split; [now right|]. intros [[E _]|[_ H]]; [congruence|exact H].
  - apply place_directory in P
      as (_ & folderName & elements & deeper & deeper' & G & P & ->).
    specialize (IH ltac:(discriminate) deeper deeper' P).
    destruct r as [|a r]; [cbn; split; [discriminate|intros [[? _]|[? _]]; discriminate]|].
    destruct (String.eqb_spec part a) as [<-|N].
    + destruct r as [|b r].
      * rewrite resolveIn_single, getProperty_setProperty_same. cbn.
        rewrite String.eqb_refl. cbn. split; [discriminate|].
        intros [[? _]|[? _]]; discriminate.
      * assert (resolveIn (part :: b :: r)
                  (setProperty part (folder folderName elements deeper') level)
                = resolveIn (b :: r) deeper') as ->
          by (cbn [resolveIn]; now rewrite getProperty_setProperty_same).
        assert (resolveIn (part :: b :: r) level = resolveIn (b :: r) deeper) as ->.
        { cbn [resolveIn]. destruct G as [->|(-> & _ & _ & ->)]; reflexivity. }
        cbn [comparable]. rewrite String.eqb_refl. cbn [andb].
        change (last (part :: next :: rest) "") with (last (next :: rest) "").
        rewrite IH. split.
        -- intros [(-> & Hn & Hp)|H]; [left|now right]. now repeat split.
        -- intros [(E & Hn & Hp)|H]; [left|now right].
           injection E as -> ->. now repeat split.
    + assert (resolveIn (a :: r) (setProperty part (folder folderName elements deeper') level)
              = resolveIn (a :: r) level) as ->
        by (cbn [resolveIn]; now rewrite getProperty_setProperty_other).
      cbn [comparable]. destruct (String.eqb_spec a part) as [E|_]; [congruence|].
      cbn. split; [now right|]. intros [[E _]|[_ H]]; [congruence|exact H].
Qed.

(** A walk completes when its parts are plain keys and no file lies on its
    way. *)
Lemma place_completes path (q : list string) :
  q <> [] ->
  Forall (fun part => plainKey part = true) q ->
  forall level,
    (forall r n p, resolveIn r level = Some (file n p) -> comparable r q = true -> r = q) ->
    exists level', place path q level = Normal level'.
Proof.
  induction q as [|part q IH]; [congruence|]. intros _ Plain level Free.
  inversion_clear Plain as [|? ? PlainPart PlainRest].
  destruct q as [|next rest].
  - cbn. rewrite PlainPart. cbn. eauto.
  - remember (next :: rest) as tail eqn:T. cbn [place]. rewrite PlainPart. cbn [negb].
    destruct tail as [|x xs]; [discriminate|]. injection T as -> ->.
    destruct (getProperty part level) as [[n p|folderName elements deeper]|] eqn:G.
    + exfalso. specialize (Free [part] n p).
      rewrite resolveIn_single in Free. specialize (Free G).
      cbn in Free. rewrite String.eqb_refl in Free. specialize (Free eq_refl).
      discriminate.
    + rewrite G.
      destruct (IH ltac:(discriminate) PlainRest deeper) as [deeper' ->]; [|eauto].
      intros r n p R C. destruct r as [|b r]; [discriminate|].
      specialize (Free (part :: b :: r) n p).
      cbn [resolveIn] in Free. rewrite G in Free. specialize (Free R).
      cbn [comparable] in Free. rewrite String.eqb_refl in Free.
      specialize (Free C). injection Free as -> ->. reflexivity.
    + rewrite getProperty_setProperty_same.
      destruct (IH ltac:(discriminate) PlainRest []) as [deeper' ->]; [|eauto].
      intros r n p R. now rewrite resolveIn_nil_level in R.
Qed.

(** A walk over plain keys is one the model follows. *)
Lemma place_supported path (q : list string) :
  Forall (fun part => plainKey part = true) q ->
  forall level, place path q level <> Unsupported.
Proof.
  induction q as [|part q IH]; intros Plain level; [discriminate|].
  inversion_clear Plain as [|? ? PlainPart PlainRest].
  destruct q as [|next rest].
  - cbn. rewrite PlainPart. discriminate.
  - remember (next :: rest) as tail eqn:T. cbn [place]. rewrite PlainPart. cbn [negb].
    destruct tail as [|x xs]; [discriminate|].
    match goal with |- context [getProperty part ?l] =>
      destruct (getProperty part l) as [[n p|folderName elements deeper]|] end;
      try discriminate.
    specialize (IH PlainRest deeper).
    destruct (place path (x :: xs) deeper); [discriminate|discriminate|contradiction].
Qed.

End Placing.

Section Building.
Import App.

Lemma shaped_nil : shaped [].
Proof. split; [constructor|intros ? ? []]. Qed.

Lemma forallb_emptyChildren_shaped (level : list (string * FileTreeNode)) :
  forallb (fun '(_, below) => emptyChildren below) level = true
  <-> forall key node, In (key, node) level -> emptyChildren node = true.
Proof.
  rewrite forallb_forall. split.
  - intros H key node I. exact (H (key, node) I).
  - intros H [key node] I. exact (H key node I).
Qed.

Lemma setProperty_shaped key node level :
  node_name node = key -> emptyChildren node = true ->
  shaped level -> shaped (setProperty key node level).
Proof.
  intros Nm Em [ND K]. split; [now apply setProperty_NoDup|].
  intros key' node' I.
  destruct (setProperty_In _ _ _ _ _ I) as [E|I']; [|now apply K].
  injection E as -> ->. now split.
Qed.

(** Below the top the keys matter no more, the arrays still do. *)
Lemma place_emptyChildren path (q : list string) :
  forall level level',
    (forall key node, In (key, node) level -> emptyChildren node = true) ->
    place path q level = Normal level' ->
    forall key node, In (key, node) level' -> emptyChildren node = true.
Proof.
  induction q as [|part q IH]; intros level level' Em P.
  - cbn in P. now injection P as <-.
  - destruct q as [|next rest].
    + apply place_last in P as [_ ->]. intros key node I.
      destruct (setProperty_In _ _ _ _ _ I) as [E|I']; [|now apply (Em key)].
      now injection E as -> ->.
    + apply place_directory in P
        as (_ & folderName & elements & deeper & deeper' & G & P & ->).
      assert (elements = []
              /\ forall key node, In (key, node) deeper -> emptyChildren node = true)
        as [-> EmDeeper].
      { destruct G as [G|(_ & _ & -> & ->)]; [|split; [reflexivity|intros ? ? []]].
        apply getProperty_In, Em in G. cbn in G.
        destruct elements; [|discriminate].
        split; [reflexivity|]. now apply forallb_emptyChildren_shaped. }
      intros key node I.
      destruct (setProperty_In _ _ _ _ _ I) as [E|I']; [|now apply (Em key)].
      injection E as -> ->. cbn.
      apply forallb_emptyChildren_shaped. exact (IH deeper deeper' EmDeeper P).
Qed.

Lemma place_shaped path (q : list string) level level' :
  shaped level -> place path q level = Normal level' -> shaped level'.
Proof.
  intros [ND K] P.
  assert (forall key node, In (key, node) level' -> emptyChildren node = true) as Em
    by (apply (place_emptyChildren path q level level'); [intros; now apply (K key)|exact P]).
  destruct q as [|part [|next rest]].
  - cbn in P. injection P as <-. now split.
  - apply place_last in P as [_ ->].
    apply setProperty_shaped; [reflexivity|reflexivity|now split].
  - apply place_directory in P
      as (_ & folderName & elements & deeper & deeper' & G & P & ->).
    split; [now apply setProperty_NoDup|].
    intros key node I. split; [|now apply (Em key)].
    destruct (setProperty_In _ _ _ _ _ I) as [E|I']; [|now apply K].
    injection E as -> ->. cbn.
    destruct G as [G|(_ & -> & _)]; [|reflexivity].
    now apply getProperty_In, K in G.
Qed.

Lemma pathParts_nonempty (f : GeneratedFile) : pathParts f <> [].
Proof. apply split_nonempty. Qed.

Lemma placeAll_holds (files : list GeneratedFile) :
  forall placed root,
    plainNames (placed ++ files) -> conflictFree (placed ++ files) ->
    shaped root -> holds placed root ->
    exists root', placeAll files root = Normal root'
                  /\ shaped root' /\ holds (placed ++ files) root'.
Proof.
  induction files as [|g files IH]; intros placed root Plain Free Sh H.
  - exists root. rewrite app_nil_r. split; [reflexivity|split; assumption].
  - assert (In g (placed ++ g :: files)) as Ig by (apply in_or_app; right; now left).
    destruct (place_completes (name g) (pathParts g) (pathParts_nonempty g)
                (Plain g Ig) root) as [root' P].
    { intros r n p R C. apply H in R as (f & If & <- & _).
      apply Free; [apply in_or_app; now left|exact Ig|exact C]. }
    cbn [placeAll]. fold (pathParts g). rewrite P.
    replace (placed ++ g :: files) with ((placed ++ [g]) ++ files) in *
      by (now rewrite <- app_assoc).
    apply IH; try assumption; [now apply (place_shaped _ _ _ _ Sh P)|].
    intros r n p.
    rewrite (place_files (name g) (pathParts g) (pathParts_nonempty g) root root' P).
    split.
    + intros [(-> & -> & ->)|[C R]].
      * exists g. split; [apply in_or_app; right; now left|now repeat split].
      * apply H in R as (f & If & Er & En & Ep).
        exists f. split; [apply in_or_app; now left|now repeat split].
    + intros (f & If & Er & En & Ep). apply in_app_or in If as [If|[<-|[]]].
      * destruct (comparable r (pathParts g)) eqn:C.
        -- left. rewrite <- Er in C.
           assert (pathParts f = pathParts g) as E.
           { apply Free; [apply in_or_app; left; apply in_or_app; now left|
                          apply in_or_app; left; apply in_or_app; right; now left|exact C]. }
           split; [congruence|]. split; [congruence|].
           rewrite Ep. now apply pathParts_inj.
        -- right. split; [reflexivity|]. apply H. now exists f.
      * left. subst r. now repeat split.
Qed.

Context {collation : Collation}.

Lemma insertSorted_Permutation (x : FileTreeNode) (sorted : list FileTreeNode) :
  Permutation (insertSorted x sorted) (x :: sorted).
Proof.
  induction sorted as [|y sorted IH]; cbn; [reflexivity|].
  destruct (compareNodes x y <? 0)%Z; [reflexivity|].
  rewrite IH. apply perm_swap.
Qed.

(** Sorting moves the nodes around and does nothing else. *)
Lemma sort_Permutation (nodes : list FileTreeNode) : Permutation (sort nodes) nodes.
Proof.
  unfold sort.
  assert (forall sorted,
             Permutation (fold_left (fun acc x => insertSorted x acc) nodes sorted)
                         (sorted ++ nodes)) as G.
  { induction nodes as [|x nodes IH]; intros sorted; cbn.
    - now rewrite app_nil_r.
    - rewrite IH, insertSorted_Permutation. apply Permutation_middle. }
  exact (G []).
Qed.

Lemma resolveIn_agree (parts : list string) (l1 l2 : list (string * FileTreeNode)) :
  (forall key, getProperty key l1 = getProperty key l2) ->
  resolveIn parts l1 = resolveIn parts l2.
Proof. intros E. destruct parts as [|part rest]; cbn; [reflexivity|now rewrite E]. Qed.

(** Resolving in the sorted array is resolving in the root object. *)
Lemma resolve_treeToArray (parts : list string) (root : list (string * FileTreeNode)) :
  shaped root -> resolve parts (treeToArray root) = resolveIn parts root.
Proof.
  intros [ND K]. unfold resolve, treeToArray. symmetry.
  apply resolveIn_agree. intros key.
  apply getProperty_Permutation; [exact ND|].
  transitivity (map (fun node => (node_name node, node)) (map snd root)).
  - rewrite map_map.
    assert (map (fun x => (node_name (snd x), snd x)) root = root) as ->; [|reflexivity].
    clear ND. induction root as [|[k node] root IH]; cbn; [reflexivity|].
    rewrite (proj1 (K k node (or_introl eq_refl))). f_equal.
    apply IH. intros key' node' I. apply K. now right.
  - apply Permutation_map. symmetry. apply sort_Permutation.
Qed.

Lemma listedFiles_emptyChildren (node : FileTreeNode) (depth : nat) :
  emptyChildren node = true ->
  forall entry, In entry (listedFiles depth node) -> fst entry = depth.
Proof.
  destruct node as [n p|n children deeper]; cbn.
  - intros _ entry [<-|[]]. reflexivity.
  - destruct children; [|discriminate]. intros _ entry [].
Qed.

Lemma placeAll_shaped (files : list GeneratedFile) :
  forall root root', shaped root -> placeAll files root = Normal root' -> shaped root'.
Proof.
  induction files as [|f files IH]; intros root root' Sh P; cbn [placeAll] in P.
  - now injection P as <-.
  - destruct (place (name f) (split "/" (name f)) root) as [root1| |] eqn:P1;
      try discriminate.
    exact (IH root1 root' (place_shaped _ _ _ _ Sh P1) P).
Qed.

Lemma placeAll_supported (files : list GeneratedFile) :
  plainNames files -> forall root, placeAll files root <> Unsupported.
Proof.
  induction files as [|f files IH]; intros Plain root; cbn [placeAll]; [discriminate|].
  pose proof (place_supported (name f) (split "/" (name f))
                (Plain f (or_introl eq_refl)) root) as S.
  destruct (place (name f) (split "/" (name f)) root) as [root1| |];
    [|discriminate|contradiction].
  apply IH. intros g I. apply Plain. now right.
Qed.

(** What a tree made of a shaped root lists: files of the top only. *)
Lemma treeToArray_lists_top_level_only (root : list (string * FileTreeNode)) :
  shaped root ->
  (forall node, In node (treeToArray root) -> emptyChildren node = true)
  /\ (forall depth path, In (depth, path) (treeFiles (treeToArray root)) -> depth = 1).
Proof.
  intros Sh.
  assert (forall node, In node (treeToArray root) -> emptyChildren node = true) as Em.
  { intros node I. unfold treeToArray in I.
    apply (Permutation_in _ (sort_Permutation _)) in I.
    apply in_map_iff in I as ([key node'] & <- & I). now apply (proj2 Sh key). }
  split; [exact Em|].
  intros depth path I. unfold treeFiles in I.
  apply in_flat_map in I as (node & In_node & I).
  exact (listedFiles_emptyChildren node 1 (Em node In_node) _ I).
Qed.

(** X2.  On names of plain parts, clashing or not, [buildFileTree] throws
    or returns a tree in which the arrays of the folders are empty, so that
    going through [children] meets the files of the top level and no
    other. *)
Theorem buildFileTree_lists_top_level_only (files : list GeneratedFile) :
  plainNames files ->
  match buildFileTree files with
  | Normal tree =>
      (forall node, In node tree -> emptyChildren node = true)
      /\ (forall depth path, In (depth, path) (treeFiles tree) -> depth = 1)
  | ThrowsTypeError => True
  | Unsupported => False
  end.
Proof.
  intros Plain. unfold buildFileTree.
  pose proof (placeAll_supported files Plain []) as S.
  destruct (placeAll files []) as [root| |] eqn:P; [|exact I|contradiction].
  exact (treeToArray_lists_top_level_only root (placeAll_shaped files [] root shaped_nil P)).
Qed.

(** X1.  On names of plain parts none of which is a folder of another, repeated
    names or not, [buildFileTree] returns a tree in which every file is found
    by property access along its parts, as a file node that carries its name;
    and the tree lists files at depth 1 only, the arrays of its folders being
    empty. *)
Theorem buildFileTree_resolves_every_file (files : list GeneratedFile) :
  plainNames files -> conflictFree files ->
  exists tree,
    buildFileTree files = Normal tree
    /\ (forall f, In f files ->
                  resolve (pathParts f) tree
                  = Some (file (last (pathParts f) "") (name f)))
    /\ (forall node, In node tree -> emptyChildren node = true)
    /\ (forall depth path, In (depth, path) (treeFiles tree) -> depth = 1).
Proof.
  intros Plain Free.
  destruct (placeAll_holds files [] [] Plain Free shaped_nil) as (root & P & Sh & H).
  { intros r n p. rewrite resolveIn_nil_level.
    split; [discriminate|intros (f & [] & _)]. }
  cbn [app] in H.
  assert (buildFileTree files = Normal (treeToArray root)) as B
    by (unfold buildFileTree; now rewrite P).
  exists (treeToArray root). split; [exact B|].
  split; [|exact (treeToArray_lists_top_level_only root Sh)].
  intros f If. rewrite (resolve_treeToArray _ _ Sh). apply H. now exists f.
Qed.

End Building.

Example split_nested : split "/" "src/lib/db.js" = ["src"; "lib"; "db.js"].
Proof. reflexivity. Qed.

Example split_no_separator : split "/" "package.json" = ["package.json"].
Proof. reflexivity. Qed.

Example split_empty_parts : split "/" "/a//b/" = [""; "a"; ""; "b"; ""].
Proof. reflexivity. Qed.

Example trim_both_ends : trim (" " ++ nl ++ "{ } " ++ nl) = "{ }".
Proof. reflexivity. Qed.

Example buildFileTree_exampleProject :
  @App.buildFileTree App.byCodeUnit App.exampleProject
  = App.Normal
      [ App.folder "src" []
          [ ("index.js", App.file "index.js" "src/index.js");
            ("lib", App.folder "lib" [] [ ("db.js", App.file "db.js" "src/lib/db.js") ]) ];
        App.file "index.html" "index.html";
        App.file "package.json" "package.json" ].
Proof. reflexivity. Qed.

Example buildFileTree_reserved_key :
  @App.buildFileTree App.byCodeUnit [ mkFile "constructor/index.js" "x" ] = App.Unsupported.
Proof. reflexivity. Qed.

(** The hypotheses of [buildFileTree_resolves_every_file] hold of
    [exampleProject]. *)
Lemma buildFileTree_resolves_every_file_example :
  exists tree,
    @App.buildFileTree App.byCodeUnit App.exampleProject = App.Normal tree
    /\ (forall f, In f App.exampleProject ->
                  App.resolve (App.pathParts f) tree
                  = Some (App.file (last (App.pathParts f) "") (name f)))
    /\ (forall node, In node tree -> App.emptyChildren node = true)
    /\ (forall depth path, In (depth, path) (App.treeFiles tree) -> depth = 1).
Proof.
  apply (@buildFileTree_resolves_every_file App.byCodeUnit App.exampleProject).
  - intros f I. cbn in I.
    repeat (destruct I as [<-|I]; [vm_compute; repeat constructor|]).
    contradiction.
  - intros f g If Ig. cbn in If, Ig.
    repeat (destruct If as [<-|If]; [|]); try contradiction;
      repeat (destruct Ig as [<-|Ig]; [|]); try contradiction;
      vm_compute; congruence.
Defined.

Section FileTreeFacts.
Import App.
Context {collation : Collation}.

(** C2.  Three inputs on which [buildFileTree] does not give the tree the
    claim describes.  A file nested in a folder is put on the folder's
    [children] array as a named property, so that the array stays empty and
    the tree lists no file at depth 2.  A file whose name is a folder of an
    earlier file replaces that folder, and the earlier file is no longer in
    the tree.  A file in a folder whose name is an earlier file makes
    [buildFileTree] throw. *)
Theorem buildFileTree_misses_nested_files :
  (buildFileTree [ mkFile "src/index.js" "x" ]
   = Normal [ folder "src" [] [ ("index.js", file "index.js" "src/index.js") ] ]
   /\ treeFiles [ folder "src" [] [ ("index.js", file "index.js" "src/index.js") ] ] = [])
  /\ (buildFileTree [ mkFile "a/b" "x"; mkFile "a" "y" ] = Normal [ file "a" "a" ]
      /\ treeFiles [ file "a" "a" ] = [ (1, "a") ]
      /\ resolve ["a"; "b"] [ file "a" "a" ] = None)
  /\ buildFileTree [ mkFile "a" "y"; mkFile "a/b" "x" ] = ThrowsTypeError.
Proof. repeat split. Qed.

(** C8.  A list with a repeated name that [buildFileTree] does not accept:
    the third file lies in a folder named as the file given twice. *)
Theorem buildFileTree_throws_on_list_with_repeated_name :
  buildFileTree [ mkFile "a" "1"; mkFile "a" "2"; mkFile "a/b" "3" ] = ThrowsTypeError
  /\ buildFileTree [ mkFile "a" "1"; mkFile "a" "2" ] = Normal [ file "a" "a" ].
Proof. repeat split. Qed.

End FileTreeFacts.

(** ** What the component keeps true *)

Section ComponentInvariants.
Import App.

Lemma even_odd_length {A : Type} (l : list A) (x : A) :
  Nat.odd (List.length (l ++ [x])) = negb (Nat.odd (List.length l)).
Proof.
  rewrite length_app. cbn [List.length]. rewrite Nat.add_1_r, Nat.odd_succ.
  now rewrite <- Nat.negb_odd.
Qed.

(** The turns after one more: the old places are as they were, the new turn
    is at the end. *)
Lemma nth_error_snoc {A : Type} (l : list A) (x : A) (i : nat) (y : A) :
  nth_error (l ++ [x]) i = Some y ->
  nth_error l i = Some y \/ (i = List.length l /\ y = x).
Proof.
  intros H. destruct (Nat.lt_ge_cases i (List.length l)) as [L|G].
  - left. now rewrite nth_error_app1 in H.
  - right. rewrite nth_error_app2 in H by exact G.
    destruct (i - List.length l) as [|k] eqn:D.
    + cbn in H. injection H as <-. split; [lia|reflexivity].
    + cbn in H. now destruct k.
Qed.

Lemma handleSubmit_idle (s s' : State) :
  handleSubmit s = (s', None) -> s' = s.
Proof.
  unfold handleSubmit.
  destruct ((trim (prompt s) =? "") || isLoading s); [|discriminate].
  intros H. now injection H as <-.
Qed.

Lemma handleSubmit_started_state (s s' : State) (request : Request) :
  handleSubmit s = (s', Some request) ->
  isFirstRequest s' = isFirstRequest s /\ error s' = "" /\ prompt s' = "" /\ image s' = None.
Proof.
  unfold handleSubmit.
  destruct ((trim (prompt s) =? "") || isLoading s); [discriminate|].
  intros H. injection H as <- <-. now repeat split.
Qed.

Lemma handleSubmit_settled_state (request : Request)
  (outcome : Settled (list GeneratedFile)) (s : State) :
  isFirstRequest (handleSubmit_settled request outcome s)
  = match outcome with
    | Fulfilled _ => if wasFirstRequest request then false else isFirstRequest s
    | Rejected _ => isFirstRequest s
    end
  /\ error (handleSubmit_settled request outcome s)
     = match outcome with
       | Fulfilled _ => error s
       | Rejected (Error message) => message
       | Rejected NotAnError => "An unknown error occurred."
       end.
Proof.
  unfold handleSubmit_settled.
  destruct outcome as [result|[message|]]; [destruct (wasFirstRequest request)| |];
    now split.
Qed.

Lemma existsb_snoc {A : Type} (p : A -> bool) (l : list A) (x : A) :
  existsb p (l ++ [x]) = existsb p l || p x.
Proof. rewrite existsb_app. cbn. now rewrite orb_false_r. Qed.

Lemma step_consistent (r : Running) (e : Event) : consistent r -> consistent (step r e).
Proof.
  intros (One & [Alt Odd] & [Flag Flying] & Banner).
  pose proof (step_oneInFlight r e One) as One'.
  split; [exact One'|].
  destruct e as [|index outcome|v|v|v|v|v|v|v]; cbn [step] in *;
    try (split; [split; assumption|split; [split; assumption|exact Banner]]).
  - (* submit *)
    destruct (handleSubmit (state r)) as [s' started] eqn:H.
    destruct started as [request|].
    + pose proof (handleSubmit_started_state _ _ _ H) as (F' & E' & _).
      apply handleSubmit_started in H as (L & _ & L' & U & _ & _ & _ & W).
      unfold turnsAlternate, flagTracksResponses. cbn [state inFlight].
      rewrite L in Odd.
      assert (Nat.even (List.length (chatHistory (state r))) = true) as Even
        by (rewrite <- Nat.negb_odd, <- Odd; reflexivity).
      split; [split|split; [split|]].
      * intros i m N. rewrite U in N.
        apply nth_error_snoc in N as [N|[-> ->]]; [now apply Alt|].
        now rewrite Even.
      * rewrite U, even_odd_length, <- Odd. exact L'.
      * rewrite F', U, existsb_snoc, Flag. cbn. now rewrite orb_false_r.
      * intros request' I. rewrite F'.
        apply in_app_or in I as [I|[<-|[]]]; [now apply Flying|exact W].
      * unfold bannerMatchesLastTurn. rewrite U, rev_app_distr. cbn. exact E'.
    + apply handleSubmit_idle in H as ->. cbn [state inFlight].
      split; [split; assumption|split; [split; assumption|exact Banner]].
  - (* settle *)
    destruct (nth_error (inFlight r) index) as [request|] eqn:N;
      [|split; [split; assumption|split; [split; assumption|exact Banner]]].
    unfold turnsAlternate, flagTracksResponses. cbn [state inFlight] in *.
    assert (isLoading (state r) = true) as L.
    { destruct One as [[_ F]|[L _]]; [|exact L]. rewrite F in N. now destruct index. }
    pose proof (Flying request (nth_error_In _ _ N)) as W.
    pose proof (handleSubmit_settled_state request outcome (state r)) as [F' E'].
    pose proof (handleSubmit_settled_history request outcome (state r)) as U.
    rewrite L in Odd.
    split; [split|split; [split|]].
    + intros i m Ni. rewrite U in Ni.
      apply nth_error_snoc in Ni as [Ni|[-> ->]]; [now apply Alt|].
      rewrite <- Nat.negb_odd, <- Odd. now destruct outcome.
    + rewrite U, even_odd_length, <- Odd. reflexivity.
    + rewrite F', U, existsb_snoc, W, Flag.
      destruct outcome; cbn; [|now rewrite orb_false_r].
      rewrite orb_true_r. now destruct (negb _).
    + intros request' I. exfalso.
      destruct One' as [[_ F]|[L' _]]; [cbn in F; now rewrite F in I|discriminate L'].
    + unfold bannerMatchesLastTurn in *. rewrite U, rev_app_distr. cbn [rev app].
      rewrite E'.
      assert (error (state r) = "") as Quiet.
      { destruct (rev (chatHistory (state r))) as [|m rest] eqn:R; [exact Banner|].
        assert (nth_error (chatHistory (state r))
                          (List.length (chatHistory (state r)) - 1) = Some m) as Last.
        { rewrite <- (rev_involutive (chatHistory (state r))), R. cbn.
          rewrite length_app, length_rev. cbn.
          rewrite nth_error_app2 by (rewrite length_rev; lia).
          rewrite length_rev.
          replace (List.length rest + 1 - 1 - List.length rest) with 0 by lia.
          reflexivity. }
        apply Alt in Last.
        assert (Nat.even (List.length (chatHistory (state r)) - 1) = true) as Ev.
        { destruct (List.length (chatHistory (state r))) as [|n]; [discriminate Odd|].
          cbn [Nat.sub]. rewrite Nat.sub_0_r.
          rewrite Nat.odd_succ in Odd. now symmetry. }
        rewrite Ev in Last. unfold isUser in Last.
        destruct (type m); [exact Banner|discriminate|discriminate]. }
      destruct outcome as [result|[message|]]; cbn; [exact Quiet|reflexivity|reflexivity].
Qed.

Lemma after_consistent (events : list Event) : consistent (after events).
Proof.
  unfold after.
  assert (forall r, consistent r -> consistent (fold_left step events r)) as G.
  { induction events as [|e events IH]; intros r I; cbn; [exact I|].
    apply IH, step_consistent, I. }
  apply G. split; [left; now split|].
  split; [split; [intros [|i] m N; discriminate|reflexivity]|].
  split; [split; [reflexivity|intros ? []]|reflexivity].
Qed.

End ComponentInvariants.

Section ComponentFacts.
Import App.

Lemma trimEnd_keeps (c : ascii) (s : string) :
  isWhiteSpace c = false -> trimEnd (String c s) <> "".
Proof. intros N. cbn [trimEnd]. rewrite N. now destruct (trimEnd s). Qed.

Lemma trimStart_blank (s : string) :
  trimStart s = "" <-> everyChar isWhiteSpace s = true.
Proof.
  induction s as [|c s IH]; cbn; [tauto|].
  destruct (isWhiteSpace c); cbn; [exact IH|]. split; discriminate.
Qed.

Lemma trimStart_head (s : string) (c : ascii) (rest : string) :
  trimStart s = String c rest -> isWhiteSpace c = false.
Proof.
  induction s as [|d s IH]; cbn; [discriminate|].
  destruct (isWhiteSpace d) eqn:W; [exact IH|].
  intros H. now injection H as <- _.
Qed.

(** Trimming leaves nothing exactly of the strings of white space. *)
Lemma trim_blank (s : string) : trim s = "" <-> everyChar isWhiteSpace s = true.
Proof.
  unfold trim. rewrite <- trimStart_blank.
  destruct (trimStart s) as [|c rest] eqn:T; [tauto|].
  split; [|discriminate]. intros H. exfalso.
  exact (trimEnd_keeps c rest (trimStart_head s c rest T) H).
Qed.

(** X9.  [handleSubmit] starts a request exactly when none is awaited and
    the prompt has a code unit that is no white space; it then empties the
    prompt, drops the image, clears the error and raises the loading flag. *)
Theorem handleSubmit_starts_unless_blank_or_loading (s : State) :
  ((exists s' request, handleSubmit s = (s', Some request))
   <-> isLoading s = false /\ everyChar isWhiteSpace (prompt s) = false)
  /\ (forall s' request,
        handleSubmit s = (s', Some request) ->
        prompt s' = "" /\ image s' = None /\ error s' = "" /\ isLoading s' = true)
  /\ (forall s', handleSubmit s = (s', None) -> s' = s).
Proof.
  split; [|split].
  - split.
    + intros (s' & request & H).
      apply handleSubmit_started in H as (L & T & _). split; [exact L|].
      rewrite trim_blank in T. now destruct (everyChar isWhiteSpace (prompt s)).
    + intros [L B]. unfold handleSubmit. rewrite L.
      destruct (String.eqb_spec (trim (prompt s)) "") as [E|_]; [|cbn; eauto].
      apply trim_blank in E. congruence.
  - intros s' request H.
    pose proof (handleSubmit_started_state _ _ _ H) as (_ & E & P & I).
    apply handleSubmit_started in H as (_ & _ & L & _). now repeat split.
  - exact (handleSubmit_idle s).
Qed.

(** X10.  The first-request flag is up exactly as long as the history has no
    assistant turn, so that every prompt sent before the first fulfilled
    request starts with the initial project specifications, and every prompt
    after it is a follow-up request of the user's text and nothing else. *)
Theorem first_request_until_first_response (events : list Event) :
  isFirstRequest (state (after events))
  = negb (existsb isAssistant (chatHistory (state (after events))))
  /\ forall s' request,
       handleSubmit (state (after events)) = (s', Some request) ->
       if existsb isAssistant (chatHistory (state (after events)))
       then currentPrompt request
            = ("**Follow-up Request:**" ++ nl ++ prompt (state (after events)))%string
       else String.prefix "**Initial Project Specifications:**" (currentPrompt request) = true.
Proof.
  destruct (after_consistent events) as (_ & _ & [Flag _] & _).
  split; [exact Flag|]. intros s' request H.
  apply handleSubmit_started in H as (_ & _ & _ & _ & _ & -> & _).
  unfold constructFullPrompt. rewrite Flag.
  now destruct (existsb isAssistant (chatHistory (state (after events)))).
Qed.

(** X11.  In the history a user turn stands at every even place and a reply,
    of the assistant or of the system, at every odd place; the history ends
    in a user turn without a reply exactly while a request is awaited. *)
Theorem turns_alternate (events : list Event) :
  (forall i m,
      nth_error (chatHistory (state (after events))) i = Some m ->
      if Nat.even i then type m = user else type m = ai \/ type m = system)
  /\ isLoading (state (after events))
     = Nat.odd (List.length (chatHistory (state (after events))))
  /\ List.length (chatHistory (state (after events)))
     = 2 * List.length (filter isUser (chatHistory (state (after events))))
       - (if isLoading (state (after events)) then 1 else 0).
Proof.
  destruct (after_consistent events) as (_ & [Alt Odd] & _).
  split; [|split; [exact Odd|]].
  - intros i m N. apply Alt in N. unfold isUser in N.
    destruct (Nat.even i), (type m); try discriminate; auto.
  - rewrite Odd. clear Odd.
    assert (forall (h : list Message) (k : nat),
               (forall i m, nth_error h i = Some m -> isUser m = Nat.even (k + i)) ->
               List.length h + (if Nat.odd (k + List.length h) then 1 else 0)
               = 2 * List.length (filter isUser h) + (if Nat.odd k then 1 else 0)) as G.
    { induction h as [|m h IH]; intros k A.
      - cbn. now rewrite Nat.add_0_r.
      - pose proof (A 0 m eq_refl) as A0. rewrite Nat.add_0_r in A0.
        specialize (IH (S k)).
        assert (forall i m', nth_error h i = Some m' -> isUser m' = Nat.even (S k + i)) as A'.
        { intros i m' N. rewrite (A (S i) m' N). f_equal. lia. }
        specialize (IH A'). cbn [List.length filter].
        replace (k + S (List.length h)) with (S k + List.length h) by lia.
        rewrite A0. rewrite Nat.odd_succ in IH. rewrite <- (Nat.negb_even k).
        destruct (Nat.even k); cbn [negb List.length] in *; lia. }
    specialize (G (chatHistory (state (after events))) 0 Alt). cbn in G.
    destruct (Nat.odd (List.length (chatHistory (state (after events))))); lia.
Qed.

(** X12.  The error shown under the history is the message of the last turn
    when that is a system turn, and is empty otherwise: after a user or an
    assistant turn, and before the first turn. *)
Theorem error_is_of_last_turn (events : list Event) :
  (forall m rest,
      rev (chatHistory (state (after events))) = m :: rest ->
      if isUser m || isAssistant m then error (state (after events)) = ""
      else content m = ("Error: " ++ error (state (after events)))%string)
  /\ (chatHistory (state (after events)) = [] -> error (state (after events)) = "").
Proof.
  destruct (after_consistent events) as (_ & _ & _ & Banner).
  unfold bannerMatchesLastTurn in Banner. split.
  - intros m rest R. rewrite R in Banner. unfold isUser, isAssistant.
    now destruct (type m).
  - intros E. now rewrite E in Banner.
Qed.

End ComponentFacts.

Section DownloadFacts.
Import App.

Lemma slugChar_plain (c : ascii) :
  isSlugChar c = true -> isWhiteSpace c = false /\ toLowerChar c = c.
Proof.
  destruct c as [[] [] [] [] [] [] [] []]; intros H; try discriminate H; now split.
Qed.

Lemma keepSlugChars_slug (s : string) : everyChar isSlugChar (keepSlugChars s) = true.
Proof.
  induction s as [|c s IH]; cbn; [reflexivity|].
  destruct (isSlugChar c) eqn:S; [cbn; now rewrite S|exact IH].
Qed.

(** On a string of the class [a-z0-9-] the steps of [projectName] change
    nothing. *)
Lemma slug_unchanged (s : string) :
  everyChar isSlugChar s = true ->
  trim s = s /\ toLowerCase s = s /\ replaceWhiteSpace false s = s /\ keepSlugChars s = s.
Proof.
  intros E.
  assert (trimStart s = s) as TS.
  { destruct s as [|c s]; [reflexivity|]. cbn in *.
    apply andb_prop in E as [E _]. now rewrite (proj1 (slugChar_plain c E)). }
  assert (trimEnd s = s) as TE.
  { induction s as [|c s IH]; [reflexivity|]. cbn in E.
    apply andb_prop in E as [Ec Es]. cbn [trimEnd].
    rewrite IH.
    - destruct s; [now rewrite (proj1 (slugChar_plain c Ec))|reflexivity].
    - exact Es.
    - destruct s as [|d s]; [reflexivity|]. cbn in *.
      apply andb_prop in Es as [Ed _]. now rewrite (proj1 (slugChar_plain d Ed)). }
  split; [unfold trim; now rewrite TS|]. clear TS TE.
  induction s as [|c s IH]; [now repeat split|]. cbn in E.
  apply andb_prop in E as [Ec Es]. destruct (IH Es) as (L & R & K).
  destruct (slugChar_plain c Ec) as [W Lc]. cbn. rewrite W, Lc, Ec, L, R, K.
  now repeat split.
Qed.

(** X13.  The name of the archive is never empty and is made of the letters
    a-z, the digits and the hyphen only; a first user
    message that is such a word already is the name as it is. *)
Theorem projectName_is_a_slug (history : list Message) :
  projectName history <> ""
  /\ everyChar isSlugChar (projectName history) = true
  /\ (forall m rest,
        history = m :: rest -> isUser m = true ->
        content m <> "" -> everyChar isSlugChar (content m) = true ->
        projectName history = content m).
Proof.
  unfold projectName, orElse. split; [|split].
  - destruct (String.eqb_spec (keepSlugChars (replaceWhiteSpace false
        (toLowerCase (trim (firstUserMessage history))))) ""); [discriminate|assumption].
  - destruct (keepSlugChars (replaceWhiteSpace false
        (toLowerCase (trim (firstUserMessage history))))) eqn:K; [reflexivity|].
    cbn [String.eqb]. rewrite <- K. apply keepSlugChars_slug.
  - intros m rest -> U N S. unfold firstUserMessage, orElse. cbn [find]. rewrite U.
    destruct (String.eqb_spec (content m) "") as [E|_]; [contradiction|].
    destruct (slug_unchanged (content m) S) as (-> & -> & -> & ->).
    now destruct (String.eqb_spec (content m) "").
Qed.

Lemma find_rev_existsb {A : Type} (p : A -> bool) (l : list A) :
  match find p (rev l) with
  | Some x => p x = true /\ In x l /\ existsb p l = true
  | None => existsb p l = false
  end.
Proof.
  destruct (find p (rev l)) as [x|] eqn:F.
  - apply find_some in F as [I P]. apply in_rev in I.
    repeat split; try assumption. apply existsb_exists. now exists x.
  - apply not_true_is_false. intros E. apply existsb_exists in E as (x & I & P).
    rewrite (find_none _ _ F x) in P; [discriminate|]. now apply in_rev in I.
Qed.

(** Where the turns that carry files are the assistant's, the latest
    snapshot is that of the latest assistant turn, if there is one. *)
Lemma latestFiles_of_history (history : list Message) :
  (forall m, In m history -> hasFiles m = isAssistant m) ->
  latestFiles history
  = if existsb isAssistant history then Some (latestResponseFiles history) else None.
Proof.
  intros E. unfold latestFiles, latestResponseFiles.
  rewrite (find_agree hasFiles isAssistant (rev history))
    by (intros m Hm; apply E; now apply in_rev).
  pose proof (find_rev_existsb isAssistant history) as F.
  destruct (find isAssistant (rev history)) as [m|].
  - destruct F as (P & I & ->). rewrite <- (E m I) in P. unfold hasFiles in P.
    now destruct (files m).
  - now rewrite F.
Qed.

Lemma history_without_images (events : list Event) :
  (forall m, In m (chatHistory (state (after events))) -> type m = user -> files m = None) ->
  forall m, In m (chatHistory (state (after events))) -> hasFiles m = isAssistant m.
Proof.
  intros NoImage m I.
  pose proof (after_turnShape events) as F. rewrite Forall_forall in F.
  specialize (F m I). specialize (NoImage m I).
  unfold turnShape in F. unfold hasFiles, isAssistant.
  destruct (type m).
  - now rewrite NoImage.
  - now destruct (files m).
  - now rewrite F.
Qed.

Context {engine : Engine} {browser : zipUtils.Browser}.

(** X14.  As long as no request was sent with an image, [handleDownload]
    does nothing before the first assistant turn, and after it archives the
    files of the latest assistant turn, each under its name with its
    content, in their order, and no other entry. *)
Theorem handleDownload_archives_latest_response (events : list Event) :
  (forall m, In m (chatHistory (state (after events))) -> type m = user -> files m = None) ->
  if existsb isAssistant (chatHistory (state (after events)))
  then zipUtils.added_entries (handleDownload (state (after events)))
       = map zipUtils.entry (latestResponseFiles (chatHistory (state (after events))))
       /\ exists rest,
            handleDownload (state (after events))
            = map (fun f => zipUtils.zip_file (Str (name f)) (Str (types.content f)))
                  (latestResponseFiles (chatHistory (state (after events))))
              ++ zipUtils.zip_generateAsync
                   (map zipUtils.entry
                        (latestResponseFiles (chatHistory (state (after events)))))
                 :: rest
  else handleDownload (state (after events)) = [].
Proof.
  intros NoImage. unfold handleDownload.
  rewrite (latestFiles_of_history _ (history_without_images events NoImage)).
  destruct (existsb isAssistant (chatHistory (state (after events)))); [|reflexivity].
  rewrite createAndDownloadZip_unfold. cbn [snd].
  set (fs := latestResponseFiles (chatHistory (state (after events)))).
  set (zipName := (projectName (chatHistory (state (after events))) ++ ".zip")%string).
  destruct (try_download_spec (map zipUtils.entry fs) zipName) as (rest & -> & N).
  set (logged := match fst (zipUtils.try_download (map zipUtils.entry fs) zipName) with
                 | inl _ => []
                 | inr error => [zipUtils.console_error "Error creating ZIP file:" error]
                 end).
  assert (zipUtils.added_entries logged = []) as L
    by (subst logged;
        now destruct (fst (zipUtils.try_download (map zipUtils.entry fs) zipName))).
  split.
  - rewrite !added_entries_app, added_entries_files.
    change (zipUtils.added_entries (zipUtils.zip_generateAsync (map zipUtils.entry fs) :: rest))
      with (zipUtils.added_entries rest).
    now rewrite N, L, !app_nil_r.
  - now exists (rest ++ logged).
Qed.

End DownloadFacts.

(** ** More on the file tree *)

Section TreeFacts.
Import App.

Lemma setProperty_unchanged key node (level : list (string * FileTreeNode)) :
  getProperty key level = Some node -> setProperty key node level = level.
Proof.
  induction level as [|[k old] level IH]; cbn; [discriminate|].
  destruct (String.eqb_spec k key) as [->|N].
  - intros H. now injection H as ->.
  - intros H. now rewrite IH.
Qed.

(** A file that is in the level already, at its path and under its name, is
    placed without a change. *)
Lemma place_present path (q : list string) :
  q <> [] ->
  Forall (fun part => plainKey part = true) q ->
  forall level,
    resolveIn q level = Some (file (last q "") path) ->
    place path q level = Normal level.
Proof.
  induction q as [|part q IH]; [congruence|]. intros _ Plain level R.
  inversion_clear Plain as [|? ? PlainPart PlainRest].
  destruct q as [|next rest].
  - rewrite resolveIn_single in R. cbn [place]. rewrite PlainPart. cbn [negb].
    cbn [last] in R. now rewrite (setProperty_unchanged _ _ _ R).
  - remember (next :: rest) as tail eqn:T. cbn [place resolveIn] in *.
    rewrite PlainPart. cbn [negb].
    destruct tail as [|x xs]; [discriminate|]. injection T as -> ->.
    destruct (getProperty part level) as [[n p|folderName elements deeper]|] eqn:G;
      try discriminate.
    rewrite G.
    change (last (part :: next :: rest) "") with (last (next :: rest) "") in R.
    rewrite (IH ltac:(discriminate) PlainRest deeper R).
    now rewrite (setProperty_unchanged _ _ _ G).
Qed.

Lemma placeAll_app (l1 l2 : list GeneratedFile) :
  forall root,
    placeAll (l1 ++ l2) root
    = match placeAll l1 root with
      | Normal root' => placeAll l2 root'
      | ThrowsTypeError => ThrowsTypeError
      | Unsupported => Unsupported
      end.
Proof.
  induction l1 as [|f l1 IH]; intros root; cbn [app placeAll]; [reflexivity|].
  destruct (place (name f) (split "/" (name f)) root); [apply IH|reflexivity|reflexivity].
Qed.

Lemma plainNames_incl (l l' : list GeneratedFile) :
  incl l l' -> plainNames l' -> plainNames l.
Proof. intros I P f If. apply P, I, If. Qed.

Lemma conflictFree_incl (l l' : list GeneratedFile) :
  incl l l' -> conflictFree l' -> conflictFree l.
Proof. intros I C f g If Ig. apply C; apply I; assumption. Qed.

Context {collation : Collation}.

(** X6.  In a list without clashes a name that comes again adds nothing:
    the tree is the tree of the list without the later file of that name. *)
Theorem buildFileTree_ignores_repeated_name
  (l1 l2 l3 : list GeneratedFile) (f g : GeneratedFile) :
  plainNames (l1 ++ f :: l2 ++ g :: l3) ->
  conflictFree (l1 ++ f :: l2 ++ g :: l3) ->
  name g = name f ->
  buildFileTree (l1 ++ f :: l2 ++ g :: l3) = buildFileTree (l1 ++ f :: l2 ++ l3).
Proof.
  intros Plain Free Same.
  assert (incl (l1 ++ f :: l2) (l1 ++ f :: l2 ++ g :: l3)) as Sub.
  { intros x I. apply in_app_or in I as [I|[<-|I]]; apply in_or_app;
      [now left|right; now left|right; right; apply in_or_app; now left]. }
  destruct (placeAll_holds (l1 ++ f :: l2) [] []
              (plainNames_incl _ _ Sub Plain) (conflictFree_incl _ _ Sub Free) shaped_nil)
    as (root & P & _ & H).
  { intros r n p. rewrite resolveIn_nil_level.
    split; [discriminate|intros (x & [] & _)]. }
  cbn [app] in H.
  assert (In g (l1 ++ f :: l2 ++ g :: l3)) as Ig
    by (apply in_or_app; right; right; apply in_or_app; right; now left).
  assert (pathParts g = pathParts f) as Parts by (unfold pathParts; now rewrite Same).
  assert (place (name g) (split "/" (name g)) root = Normal root) as Again.
  { apply place_present; [apply split_nonempty|exact (Plain g Ig)|].
    fold (pathParts g). rewrite Parts, Same. apply H. exists f.
    split; [apply in_or_app; right; now left|now repeat split]. }
  unfold buildFileTree.
  replace (l1 ++ f :: l2 ++ g :: l3) with ((l1 ++ f :: l2) ++ g :: l3)
    by (now rewrite <- app_assoc).
  replace (l1 ++ f :: l2 ++ l3) with ((l1 ++ f :: l2) ++ l3)
    by (now rewrite <- app_assoc).
  rewrite (placeAll_app (l1 ++ f :: l2) (g :: l3)), (placeAll_app (l1 ++ f :: l2) l3), P.
  cbn [placeAll]. now rewrite Again.
Qed.

(** The keys of a level after a walk: those it had, and the first part. *)
Lemma place_keys path (q : list string) level level' :
  q <> [] -> place path q level = Normal level' ->
  forall key, In key (map fst level') <-> key = hd "" q \/ In key (map fst level).
Proof.
  intros NE P key.
  assert (exists node, level' = setProperty (hd "" q) node level) as [node ->].
  { destruct q as [|part [|next rest]]; [congruence| |].
    - apply place_last in P as [_ ->]. eauto.
    - apply place_directory in P as (_ & n & e & d & d' & _ & _ & ->). eauto. }
  rewrite setProperty_keys.
  destruct (existsb (String.eqb (hd "" q)) (map fst level)) eqn:E.
  - split; [now right|]. intros [->|I]; [|exact I].
    apply existsb_exists in E as (k & I & Ek). apply String.eqb_eq in Ek. now subst.
  - rewrite in_app_iff. cbn. split; [intros [I|[<-|[]]]; auto|intros [->|I]; auto].
Qed.

(** The files at the top of a level after a walk: those that were there,
    and the file placed. *)
Lemma place_top_files path (q : list string) level level' :
  place path q level = Normal level' ->
  forall key n p, In (key, file n p) level' -> p = path \/ In (key, file n p) level.
Proof.
  intros P key n p I. destruct q as [|part [|next rest]].
  - cbn in P. injection P as <-. now right.
  - apply place_last in P as [_ ->].
    destruct (setProperty_In _ _ _ _ _ I) as [E|I']; [|now right].
    injection E as _ _ ->. now left.
  - apply place_directory in P as (_ & fn & e & d & d' & _ & _ & ->).
    destruct (setProperty_In _ _ _ _ _ I) as [E|I']; [discriminate|now right].
Qed.

Lemma placeAll_top (files : list GeneratedFile) :
  forall root root',
    placeAll files root = Normal root' ->
    (forall key, In key (map fst root')
                 <-> (exists f, In f files /\ hd "" (pathParts f) = key)
                     \/ In key (map fst root))
    /\ (forall key n p, In (key, file n p) root' ->
                        (exists f, In f files /\ name f = p) \/ In (key, file n p) root).
Proof.
  induction files as [|f files IH]; intros root root' P; cbn [placeAll] in P.
  - injection P as <-. split.
    + intros key. split; [now right|]. intros [(f & [] & _)|I]. exact I.
    + intros key n p I. now right.
  - destruct (place (name f) (split "/" (name f)) root) as [root1| |] eqn:P1;
      try discriminate.
    destruct (IH root1 root' P) as [Keys Files]. split.
    + intros key. rewrite Keys.
      rewrite (place_keys _ _ _ _ (split_nonempty "/" (name f)) P1 key).
      fold (pathParts f). split.
      * intros [(g & Ig & E)|[->|I]].
        -- left. exists g. split; [now right|exact E].
        -- left. exists f. split; [now left|reflexivity].
        -- now right.
      * intros [(g & [<-|Ig] & E)|I].
        -- right. left. now symmetry.
        -- left. now exists g.
        -- right. now right.
    + intros key n p I. destruct (Files key n p I) as [(g & Ig & E)|I1].
      * left. exists g. split; [now right|exact E].
      * destruct (place_top_files _ _ _ _ P1 key n p I1) as [->|I0].
        -- left. exists f. split; [now left|reflexivity].
        -- now right.
Qed.

Lemma itemKeys_treeToArray (root : list (string * FileTreeNode)) :
  shaped root -> Permutation (itemKeys (treeToArray root)) (map fst root).
Proof.
  intros [_ K]. unfold itemKeys, treeToArray.
  rewrite (Permutation_map node_name (sort_Permutation (map snd root))).
  rewrite map_map.
  assert (map (fun x => node_name (snd x)) root = map fst root) as ->; [|reflexivity].
  induction root as [|[k node] root IH]; cbn; [reflexivity|].
  rewrite (proj1 (K k node (or_introl eq_refl))). f_equal.
  apply IH. intros key' node' I. apply K. now right.
Qed.

(** X3.  On names of plain parts, clashing or not, [buildFileTree] throws
    or returns a tree whose top has one node for every first part of a name,
    and no two nodes of the same name, so that the keys of the items are
    distinct; the tree is empty exactly when the list is. *)
Theorem buildFileTree_top_level (files : list GeneratedFile) :
  plainNames files ->
  match buildFileTree files with
  | Normal tree =>
      NoDup (itemKeys tree)
      /\ (forall key, In key (itemKeys tree)
                      <-> exists f, In f files /\ hd "" (pathParts f) = key)
      /\ (tree = [] <-> files = [])
  | ThrowsTypeError => True
  | Unsupported => False
  end.
Proof.
  intros Plain. unfold buildFileTree.
  pose proof (placeAll_supported files Plain []) as S.
  destruct (placeAll files []) as [root| |] eqn:P; [|exact I|contradiction].
  pose proof (placeAll_shaped files [] root shaped_nil P) as Sh.
  pose proof (itemKeys_treeToArray root Sh) as Perm.
  destruct (placeAll_top files [] root P) as [Keys _].
  assert (forall key, In key (itemKeys (treeToArray root))
                      <-> exists f, In f files /\ hd "" (pathParts f) = key) as K.
  { intros key. split.
    - intros In_key. apply (Permutation_in _ Perm) in In_key.
      apply Keys in In_key as [In_key|[]]. exact In_key.
    - intros In_key. apply (Permutation_in _ (Permutation_sym Perm)).
      apply Keys. now left. }
  split; [|split; [exact K|]].
  - apply (Permutation_NoDup (Permutation_sym Perm)). exact (proj1 Sh).
  - split.
    + intros E. destruct files as [|f files]; [reflexivity|]. exfalso.
      assert (In (hd "" (pathParts f)) (itemKeys (treeToArray root))) as In_key
        by (apply K; exists f; split; [now left|reflexivity]).
      now rewrite E in In_key.
    + intros ->. cbn in P. now injection P as <-.
Qed.

(** X7.  A click on a file the tree lists opens a file of the latest
    snapshot: the first one of that name.  A click on a path that names no
    file of the snapshot changes nothing. *)
Theorem handleFileClick_opens_listed_file
  (s : State) (fs : list GeneratedFile) (tree : list FileTreeNode)
  (depth : nat) (path : string) :
  latestFiles (chatHistory s) = Some fs ->
  buildFileTree fs = Normal tree ->
  In (depth, path) (treeFiles tree) ->
  (exists f, find (fun f => name f =? path) fs = Some f
             /\ name f = path
             /\ handleFileClick path s = setViewingFile (Some f) s)
  /\ (forall other, (forall f, In f fs -> name f <> other) -> handleFileClick other s = s).
Proof.
  intros L B I. unfold handleFileClick. rewrite L. split.
  - assert (exists f, In f fs /\ name f = path) as (f & If & Nf).
    { unfold buildFileTree in B.
      destruct (placeAll fs []) as [root| |] eqn:P; try discriminate.
      injection B as <-.
      pose proof (placeAll_shaped fs [] root shaped_nil P) as Sh.
      destruct (treeToArray_lists_top_level_only root Sh) as [Em _].
      unfold treeFiles in I. apply in_flat_map in I as (node & In_node & I).
      pose proof (Em node In_node) as E.
      destruct node as [n p|n children deeper]; cbn in I, E.
      - destruct I as [I|[]]. injection I as _ ->.
        unfold treeToArray in In_node.
        apply (Permutation_in _ (sort_Permutation _)) in In_node.
        apply in_map_iff in In_node as ([key node'] & E' & In_root). cbn in E'. subst node'.
        destruct (placeAll_top fs [] root P) as [_ Files].
        destruct (Files key n path In_root) as [F|[]]. exact F.
      - destruct children; [destruct I|discriminate]. }
    destruct (find (fun f0 => name f0 =? path) fs) as [f'|] eqn:F.
    + exists f'. apply find_some in F as [_ E]. apply String.eqb_eq in E. now repeat split.
    + exfalso. pose proof (find_none _ _ F f If) as E. cbn in E.
      rewrite Nf, String.eqb_refl in E. discriminate.
  - intros other No.
    destruct (find (fun f => name f =? other) fs) as [f|] eqn:F; [|reflexivity].
    apply find_some in F as [If E]. apply String.eqb_eq in E. now apply No in If.
Qed.

End TreeFacts.

Section SortFacts.
Import App.
Context {collation : Collation}.

Lemma insertSorted_folders_first (x : FileTreeNode) (folders files : list FileTreeNode) :
  forallb isFolder folders = true ->
  forallb (fun node => negb (isFolder node)) files = true ->
  exists folders' files',
    insertSorted x (folders ++ files) = folders' ++ files'
    /\ forallb isFolder folders' = true
    /\ forallb (fun node => negb (isFolder node)) files' = true.
Proof.
  intros Fo Fi. induction folders as [|y folders IH]; cbn [app].
  - destruct (isFolder x) eqn:X.
    + exists [x], files. split; [|cbn; now rewrite X].
      destruct files as [|y files]; [reflexivity|]. cbn in Fi.
      apply andb_prop in Fi as [Y _]. cbn [insertSorted].
      destruct x, y; try discriminate. reflexivity.
    + exists [], (insertSorted x files). split; [reflexivity|]. split; [reflexivity|].
      apply forallb_forall. intros node I.
      apply (Permutation_in _ (insertSorted_Permutation x files)) in I as [<-|I].
      * now rewrite X.
      * rewrite forallb_forall in Fi. now apply Fi.
  - cbn in Fo. apply andb_prop in Fo as [Y Fo]. cbn [insertSorted].
    destruct (compareNodes x y <? 0)%Z eqn:C.
    + destruct (isFolder x) eqn:X.
      * exists (x :: y :: folders), files. split; [reflexivity|].
        split; [cbn; now rewrite X, Y, Fo|exact Fi].
      * destruct x, y; discriminate.
    + destruct (IH Fo) as (folders' & files' & -> & Fo' & Fi').
      exists (y :: folders'), files'. split; [reflexivity|].
      split; [cbn; now rewrite Y, Fo'|exact Fi'].
Qed.

(** X4.  At the top of the tree the folders come before the files, whatever
    the collation of the host. *)
Theorem treeToArray_folders_first (root : list (string * FileTreeNode)) :
  exists folders files,
    treeToArray root = folders ++ files
    /\ forallb isFolder folders = true
    /\ forallb (fun node => negb (isFolder node)) files = true.
Proof.
  unfold treeToArray, sort.
  assert (forall nodes folders files,
             forallb isFolder folders = true ->
             forallb (fun node => negb (isFolder node)) files = true ->
             exists folders' files',
               fold_left (fun sorted x => insertSorted x sorted) nodes (folders ++ files)
               = folders' ++ files'
               /\ forallb isFolder folders' = true
               /\ forallb (fun node => negb (isFolder node)) files' = true) as G.
  { induction nodes as [|x nodes IH]; intros folders files Fo Fi; cbn [fold_left].
    - now exists folders, files.
    - destruct (insertSorted_folders_first x folders files Fo Fi)
        as (folders' & files' & -> & Fo' & Fi').
      now apply IH. }
  exact (G (map snd root) [] [] eq_refl eq_refl).
Qed.

(** The comparator answers both ways alike when the collation does. *)
Lemma compareNodes_antisym :
  (forall a b, (0 <= localeCompare a b)%Z -> (localeCompare b a <= 0)%Z) ->
  forall x y, (0 <= compareNodes x y)%Z -> (compareNodes y x <= 0)%Z.
Proof.
  intros A x y. destruct x, y; cbn; try apply A; lia.
Qed.

Lemma insertSorted_Sorted (x : FileTreeNode) (sorted : list FileTreeNode) :
  (forall a b, (0 <= localeCompare a b)%Z -> (localeCompare b a <= 0)%Z) ->
  Sorted (fun a b => (compareNodes a b <= 0)%Z) sorted ->
  Sorted (fun a b => (compareNodes a b <= 0)%Z) (insertSorted x sorted).
Proof.
  intros A S. induction sorted as [|y sorted IH]; cbn [insertSorted].
  - repeat constructor.
  - destruct (Z.ltb_spec (compareNodes x y) 0) as [Lt|Ge].
    + constructor; [exact S|]. constructor. lia.
    + inversion_clear S as [|? ? S' Hd]. constructor; [exact (IH S')|].
      destruct sorted as [|z sorted]; cbn [insertSorted].
      * constructor. now apply compareNodes_antisym.
      * destruct (compareNodes x z <? 0)%Z.
        -- constructor. now apply compareNodes_antisym.
        -- inversion_clear Hd. now constructor.
Qed.

(** X5.  Under a collation that answers both ways alike, the top of the
    tree holds the nodes of the root, each once, in the order of the
    comparator: no node is followed by one that the comparator puts before
    it. *)
Theorem treeToArray_sorted (root : list (string * FileTreeNode)) :
  (forall a b, (0 <= localeCompare a b)%Z -> (localeCompare b a <= 0)%Z) ->
  Permutation (treeToArray root) (map snd root)
  /\ Sorted (fun a b => (compareNodes a b <= 0)%Z) (treeToArray root).
Proof.
  intros A. split; [apply sort_Permutation|].
  unfold treeToArray, sort.
  assert (forall nodes sorted,
             Sorted (fun a b => (compareNodes a b <= 0)%Z) sorted ->
             Sorted (fun a b => (compareNodes a b <= 0)%Z)
                    (fold_left (fun acc x => insertSorted x acc) nodes sorted)) as G.
  { induction nodes as [|x nodes IH]; intros sorted S; cbn [fold_left]; [exact S|].
    apply IH. now apply insertSorted_Sorted. }
  apply G. constructor.
Qed.

End SortFacts.

Lemma byCodeUnit_antisym (a b : string) :
  (0 <= @App.localeCompare App.byCodeUnit a b)%Z ->
  (@App.localeCompare App.byCodeUnit b a <= 0)%Z.
Proof.
  cbn. rewrite (String.compare_antisym b a).
  destruct (String.compare a b); cbn; lia.
Qed.

(** ** More on the services *)

Section GeminiServiceMore.
Import geminiService.
Context {engine : Engine} {json : Json} {remote : Remote}.

(** X15.  The message thrown inside the [try] block for an answer without a file
    array is caught there with everything else: a call fulfilled with a text
    never ends in it, and what is logged to the console is the text of
    exactly the answers rejected as of an invalid format.  A rejected call
    and the TypeError of an answer without text are passed on as they are,
    with nothing logged. *)
Theorem generateScriptBundle_hides_structure_message
  (prompt : string) (existingFiles : list GeneratedFile) (imageBase64 : option string) :
  exists request,
    match generateContent request with
    | Rejected reason =>
        generateScriptBundle prompt existingFiles imageBase64
        = (Rejected reason, [ai_models_generateContent request])
    | Fulfilled response =>
        match text response with
        | None =>
            generateScriptBundle prompt existingFiles imageBase64
            = (Rejected (Error (cannot_read_property Undefined "trim")),
               [ai_models_generateContent request])
        | Some responseText =>
            fst (generateScriptBundle prompt existingFiles imageBase64)
            <> Rejected (Error unexpected_structure_message)
            /\ (fst (generateScriptBundle prompt existingFiles imageBase64)
                = Rejected (Error invalid_format_message)
                <-> snd (generateScriptBundle prompt existingFiles imageBase64)
                    = [ ai_models_generateContent request;
                        console_error "Failed to parse JSON response:" (trim responseText) ])
            /\ (fst (generateScriptBundle prompt existingFiles imageBase64)
                <> Rejected (Error invalid_format_message)
                <-> snd (generateScriptBundle prompt existingFiles imageBase64)
                    = [ ai_models_generateContent request ])
        end
    end.
Proof.
  destruct (generateScriptBundle_unfold prompt existingFiles imageBase64)
    as (request & _ & ->).
  exists request.
  destruct (generateContent request) as [response|reason]; [|reflexivity].
  destruct (text response) as [responseText|]; [|reflexivity].
  destruct (trim responseText =? "").
  - cbn. repeat split; try discriminate; try reflexivity.
  - destruct (fst (parse_files (trim responseText))) as [files|caught]; cbn;
      repeat split; try discriminate; try reflexivity.
    intros H. exfalso. now apply H.
Qed.

End GeminiServiceMore.

Section ReaderFacts.
Import App.

Lemma split_no_separator_in (s : string) : noComma s = true -> split "," s = [s].
Proof.
  induction s as [|c s IH]; cbn; [reflexivity|].
  destruct (Ascii.eqb c ","); cbn; [discriminate|]. intros N. now rewrite (IH N).
Qed.

Lemma split_at_first_separator (header rest : string) :
  noComma header = true ->
  split "," (header ++ String "," rest) = header :: split "," rest.
Proof.
  induction header as [|c header IH]; cbn.
  - reflexivity.
  - destruct (Ascii.eqb c ","); cbn; [discriminate|]. intros N. now rewrite (IH N).
Qed.

(** X16.  The promise of [fileToBase64] takes the payload of a data URL, what
    stands between the first comma and the next, or the end; it is
    [undefined] for a result without a comma, and the reader's error is the
    promise's. *)
Theorem fileToBase64_takes_the_payload (header payload : string) :
  noComma header = true ->
  noComma payload = true ->
  fileToBase64 (Fulfilled (header ++ "," ++ payload)%string) = Fulfilled (Some payload)
  /\ (forall more,
        fileToBase64 (Fulfilled (header ++ "," ++ payload ++ "," ++ more)%string)
        = Fulfilled (Some payload))
  /\ fileToBase64 (Fulfilled header) = Fulfilled None
  /\ (forall reason, fileToBase64 (Rejected reason) = Rejected reason).
Proof.
  intros H P. unfold fileToBase64. repeat split.
  - change (header ++ "," ++ payload)%string with (header ++ String "," payload)%string.
    now rewrite (split_at_first_separator _ _ H), (split_no_separator_in _ P).
  - intros more.
    change (header ++ "," ++ payload ++ "," ++ more)%string
      with (header ++ String "," (payload ++ String "," more))%string.
    now rewrite (split_at_first_separator _ _ H), (split_at_first_separator _ _ P).
  - now rewrite (split_no_separator_in _ H).
Qed.

End ReaderFacts.

Section ZipUtilsMore.
Import zipUtils.
Context {engine : Engine} {browser : Browser}.

Lemma no_dom_call_among_files (files : list GeneratedFile) (call : DomCall Blob) :
  ~ In (dom_call call) (map (fun f => zip_file (Str (name f)) (Str (content f))) files).
Proof.
  intros I. apply in_map_iff in I as (f & E & _). discriminate.
Qed.

(** X17.  The link is clicked exactly when the archive was generated and the four
    statements before the click completed; when the click throws, the link
    is not removed from the document and the object URL is not revoked. *)
Theorem createAndDownloadZip_click_and_cleanup
  (files : list GeneratedFile) (zipName : string) :
  (In (dom_call click) (snd (createAndDownloadZip (map value_of files) zipName))
   <-> exists blob,
         generateAsync (map entry files) = Fulfilled blob
         /\ dom (createElement "a") = None
         /\ dom (createObjectURL blob) = None
         /\ dom (set_download zipName) = None
         /\ dom appendChild = None)
  /\ (forall reason,
        dom click = Some reason ->
        ~ In (dom_call removeChild)
             (snd (createAndDownloadZip (map value_of files) zipName))
        /\ ~ In (dom_call revokeObjectURL)
               (snd (createAndDownloadZip (map value_of files) zipName))).
Proof.
  rewrite createAndDownloadZip_unfold. cbn [snd].
  unfold try_download, generateAsync_blob, statement.
  cbn [bind perform].
  destruct (generateAsync (map entry files)) as [blob|reason0];
    cbn [await ret throw bind perform app fst snd].
  2:{ split.
      - split.
        + intros I. apply in_app_or in I as [I|I];
            [now apply no_dom_call_among_files in I|].
          cbn in I. intuition discriminate.
        + intros (blob & E & _). discriminate.
      - intros reason _. split; intros I; apply in_app_or in I as [I|I];
          try (now apply no_dom_call_among_files in I); cbn in I; intuition discriminate. }
  destruct (dom (createElement "a")) as [r1|] eqn:D1;
    [|destruct (dom (createObjectURL blob)) as [r2|] eqn:D2;
      [|destruct (dom (set_download zipName)) as [r3|] eqn:D3;
        [|destruct (dom appendChild) as [r4|] eqn:D4;
          [|destruct (dom click) as [r5|] eqn:D5;
            [|destruct (dom removeChild) as [r6|] eqn:D6;
              [|destruct (dom revokeObjectURL) as [r7|] eqn:D7]]]]]];
    cbn [await ret throw bind perform app fst snd];
    (split;
     [split;
      [intros I; apply in_app_or in I as [I|I];
       [now apply no_dom_call_among_files in I|];
       first [ exists blob; now repeat split
             | cbn in I; intuition discriminate ]
      |intros (blob' & E & E1 & E2 & E3 & E4); injection E as <-;
       first [ congruence
             | apply in_or_app; right; cbn; intuition congruence ]]
     |intros reason E5; first [discriminate E5 | idtac];
      split; intros I; apply in_app_or in I as [I|I];
      try (now apply no_dom_call_among_files in I); cbn in I; intuition discriminate]).
Qed.

End ZipUtilsMore.

(** ** The hypotheses above, met *)

Lemma exampleProject_plainNames : App.plainNames App.exampleProject.
Proof.
  intros f I. cbn in I.
  repeat (destruct I as [<-|I]; [vm_compute; repeat constructor|]).
  contradiction.
Qed.

Lemma exampleProject_conflictFree : App.conflictFree App.exampleProject.
Proof.
  intros f g If Ig. cbn in If, Ig.
  repeat (destruct If as [<-|If]; [|]); try contradiction;
    repeat (destruct Ig as [<-|Ig]; [|]); try contradiction;
    vm_compute; congruence.
Qed.

Lemma plainSession_without_images (m : App.Message) :
  In m (App.chatHistory (App.state (App.after App.plainSession))) ->
  App.type m = App.user -> App.files m = None.
Proof.
  intros I. vm_compute in I. destruct I as [<-|[<-|[]]]; [reflexivity|discriminate].
Qed.

Lemma buildFileTree_lists_top_level_only_example :
  (forall node, In node App.exampleTree -> App.emptyChildren node = true)
  /\ (forall depth path, In (depth, path) (App.treeFiles App.exampleTree) -> depth = 1).
Proof.
  exact (@buildFileTree_lists_top_level_only App.byCodeUnit App.exampleProject
           exampleProject_plainNames).
Defined.

Lemma buildFileTree_top_level_example :
  NoDup (App.itemKeys App.exampleTree)
  /\ (forall key, In key (App.itemKeys App.exampleTree)
                  <-> exists f, In f App.exampleProject /\ hd "" (App.pathParts f) = key)
  /\ (App.exampleTree = [] <-> App.exampleProject = []).
Proof.
  exact (@buildFileTree_top_level App.byCodeUnit App.exampleProject
           exampleProject_plainNames).
Defined.

Lemma treeToArray_sorted_example :
  Permutation (@App.treeToArray App.byCodeUnit App.exampleRoot) (map snd App.exampleRoot)
  /\ Sorted (fun a b => (@App.compareNodes App.byCodeUnit a b <= 0)%Z)
            (@App.treeToArray App.byCodeUnit App.exampleRoot).
Proof.
  apply (@treeToArray_sorted App.byCodeUnit App.exampleRoot).
  exact byCodeUnit_antisym.
Defined.

Lemma buildFileTree_ignores_repeated_name_example :
  @App.buildFileTree App.byCodeUnit App.exampleProject
  = @App.buildFileTree App.byCodeUnit
      [ mkFile "package.json" "{}"; mkFile "src/index.js" "import './lib/db.js'";
        mkFile "src/lib/db.js" "export {}"; mkFile "index.html" "<html>" ].
Proof.
  apply (@buildFileTree_ignores_repeated_name App.byCodeUnit []
           [ mkFile "src/index.js" "import './lib/db.js'";
             mkFile "src/lib/db.js" "export {}"; mkFile "index.html" "<html>" ]
           [] (mkFile "package.json" "{}") (mkFile "package.json" "{ }")).
  - exact exampleProject_plainNames.
  - exact exampleProject_conflictFree.
  - reflexivity.
Defined.

Lemma handleFileClick_opens_listed_file_example :
  (exists f, find (fun f => name f =? "package.json") App.generated = Some f
             /\ name f = "package.json"
             /\ App.handleFileClick "package.json" (App.state (App.after App.plainSession))
                = App.setViewingFile (Some f) (App.state (App.after App.plainSession)))
  /\ (forall other,
        (forall f, In f App.generated -> name f <> other) ->
        App.handleFileClick other (App.state (App.after App.plainSession))
        = App.state (App.after App.plainSession)).
Proof.
  apply (@handleFileClick_opens_listed_file App.byCodeUnit
           (App.state (App.after App.plainSession)) App.generated App.generatedTree
           1 "package.json").
  - reflexivity.
  - reflexivity.
  - cbn. left. reflexivity.
Defined.

Lemma resubmits_latest_response_without_images_example :
  App.currentFiles
    {| App.currentPrompt := "**Follow-up Request:**" ++ nl ++ "add a test";
       App.currentFiles := App.generated;
       App.imageBase64 := None;
       App.wasFirstRequest := false |}
  = App.latestResponseFiles (App.chatHistory (App.state (App.after App.plainSession))).
Proof.
  apply (resubmits_latest_response_without_images App.plainSession
           (fst (App.handleSubmit (App.state (App.after App.plainSession))))
           {| App.currentPrompt := "**Follow-up Request:**" ++ nl ++ "add a test";
              App.currentFiles := App.generated;
              App.imageBase64 := None;
              App.wasFirstRequest := false |}).
  - exact plainSession_without_images.
  - vm_compute. reflexivity.
Defined.

Lemma handleDownload_archives_latest_response_example :
  zipUtils.added_entries
    (@App.handleDownload exampleEngine App.exampleBrowser
       (App.state (App.after App.plainSession)))
  = map zipUtils.entry App.generated.
Proof.
  exact (proj1 (@handleDownload_archives_latest_response exampleEngine App.exampleBrowser
                  App.plainSession plainSession_without_images)).
Defined.

Lemma fileToBase64_takes_the_payload_example :
  App.fileToBase64 (Fulfilled ("data:image/png;base64" ++ "," ++ "iVBORw0KGgo=")%string)
  = Fulfilled (Some "iVBORw0KGgo=").
Proof.
  apply (fileToBase64_takes_the_payload "data:image/png;base64" "iVBORw0KGgo=");
    reflexivity.
Defined.
